(** * PropertyGraphViewer: the query server ([client/server/index.ts])

    A shallow embedding of the validation helpers and of the three
    request handlers ([/functions], [/function/graph], [/source]),
    followed by the properties of the specification that concern them.

    - JavaScript strings are sequences of UTF-16 code units ([jsstring]).
    - Text stored in the SQLite database is a byte string ([string]).
    - A table is the list of its rows, in storage order. *)

From Stdlib Require Import List ZArith NArith Bool Lia.
From Stdlib Require Import Strings.String Strings.Ascii.
From Stdlib Require Import Numbers.DecimalString Numbers.DecimalNat.
From Stdlib Require Import Sorting.Sorted.
From Stdlib Require Import Structures.OrderedTypeEx.
Import ListNotations.

Local Open Scope bool_scope.

(** ** JavaScript values and strings *)

Module JS.

Local Open Scope N_scope.

(** A string is its sequence of UTF-16 code units. *)
Definition jsstring := list N.

(** What a query-string parameter can be: a string, absent, or (when the
    key is repeated) an array of strings. *)
Inductive jsvalue :=
| JSString (s : jsstring)
| JSUndefined
| JSArray (items : list jsstring).

(** [v || ''] *)
Definition or_empty (v : jsvalue) : jsvalue :=
  match v with
  | JSString [] => JSString []
  | JSUndefined => JSString []
  | _ => v
  end.

(** A literal made of ASCII characters. *)
Fixpoint lit (s : string) : jsstring :=
  match s with
  | EmptyString => []
  | String a r => N_of_ascii a :: lit r
  end.

(** [WhiteSpace] and [LineTerminator] code points, as removed by
    [String.prototype.trim]. *)
Definition isWhiteSpace (c : N) : bool :=
  ((9 <=? c) && (c <=? 13)) || (c =? 32) || (c =? 160) || (c =? 5760)
  || ((8192 <=? c) && (c <=? 8202)) || (c =? 8232) || (c =? 8233)
  || (c =? 8239) || (c =? 8287) || (c =? 12288) || (c =? 65279).

Fixpoint dropWhile (p : N -> bool) (s : jsstring) : jsstring :=
  match s with
  | [] => []
  | c :: t => if p c then dropWhile p t else s
  end.

Definition trimStart (s : jsstring) : jsstring := dropWhile isWhiteSpace s.
Definition trimEnd (s : jsstring) : jsstring :=
  rev (dropWhile isWhiteSpace (rev s)).
Definition trim (s : jsstring) : jsstring := trimEnd (trimStart s).

(** [s.substring(0, n)] for [0 <= n]. *)
Definition substring0 (n : nat) (s : jsstring) : jsstring := firstn n s.

Fixpoint startsWith (s p : jsstring) : bool :=
  match p, s with
  | [], _ => true
  | _ :: _, [] => false
  | a :: p', b :: s' => (a =? b) && startsWith s' p'
  end.

(** *** [decodeURIComponent] (ECMA-262, Decode with an empty reserved set) *)

Definition decodeHex (c : N) : option N :=
  if (48 <=? c) && (c <=? 57) then Some (c - 48)
  else if (65 <=? c) && (c <=? 70) then Some (c - 55)
  else if (97 <=? c) && (c <=? 102) then Some (c - 87)
  else None.

(** Reads ["%XY"] at the head of [s] and passes the octet and the rest of
    the string to [k]; [None] stands for a thrown [URIError]. *)
Definition escape {R} (s : jsstring) (k : N -> jsstring -> option R)
  : option R :=
  match s with
  | p :: h :: l :: rest =>
      if p =? 37 then
        match decodeHex h, decodeHex l with
        | Some a, Some b => k (16 * a + b) rest
        | _, _ => None
        end
      else None
  | _ => None
  end.

Definition isContinuation (b : N) : bool := (128 <=? b) && (b <=? 191).

(** UTF-16 encoding of a code point. *)
Definition utf16 (v : N) : jsstring :=
  if v <? 65536 then [v]
  else [55296 + (v - 65536) / 1024; 56320 + (v - 65536) mod 1024].

(** The code point of a well-formed two, three or four octet sequence. *)
Definition decode2 (b0 b1 : N) : option N :=
  if (194 <=? b0) && isContinuation b1
  then Some ((b0 - 192) * 64 + (b1 - 128)) else None.

Definition decode3 (b0 b1 b2 : N) : option N :=
  let v := (b0 - 224) * 4096 + (b1 - 128) * 64 + (b2 - 128) in
  if isContinuation b1 && isContinuation b2
     && (2048 <=? v) && negb ((55296 <=? v) && (v <=? 57343))
  then Some v else None.

Definition decode4 (b0 b1 b2 b3 : N) : option N :=
  let v := (b0 - 240) * 262144 + (b1 - 128) * 4096
           + (b2 - 128) * 64 + (b3 - 128) in
  if isContinuation b1 && isContinuation b2 && isContinuation b3
     && (65536 <=? v) && (v <=? 1114111)
  then Some v else None.

Definition emit (v : option N) (r : option jsstring) : option jsstring :=
  match v, r with
  | Some v, Some r => Some (utf16 v ++ r)
  | _, _ => None
  end.

Fixpoint decode (s : jsstring) : option jsstring :=
  match s with
  | [] => Some []
  | c :: t =>
      if c =? 37 then
        escape s (fun b0 r0 =>
          if b0 <? 128 then option_map (cons b0) (decode r0)
          else if b0 <? 192 then None
          else if b0 <? 224 then
            escape r0 (fun b1 r1 => emit (decode2 b0 b1) (decode r1))
          else if b0 <? 240 then
            escape r0 (fun b1 r1 =>
            escape r1 (fun b2 r2 => emit (decode3 b0 b1 b2) (decode r2)))
          else if b0 <? 248 then
            escape r0 (fun b1 r1 =>
            escape r1 (fun b2 r2 =>
            escape r2 (fun b3 r3 =>
              emit (decode4 b0 b1 b2 b3) (decode r3))))
          else None)
      else option_map (cons c) (decode t)
  end.

Definition decodeURIComponent (s : jsstring) : option jsstring := decode s.

(** *** UTF-8 encoding of a string bound to a statement parameter *)

Definition byte (n : N) : ascii := ascii_of_N n.

Definition utf8_point (v : N) : string :=
  if v <? 128 then String (byte v) EmptyString
  else if v <? 2048 then
    String (byte (192 + v / 64)) (String (byte (128 + v mod 64)) EmptyString)
  else if v <? 65536 then
    String (byte (224 + v / 4096))
      (String (byte (128 + (v / 64) mod 64))
         (String (byte (128 + v mod 64)) EmptyString))
  else
    String (byte (240 + v / 262144))
      (String (byte (128 + (v / 4096) mod 64))
         (String (byte (128 + (v / 64) mod 64))
            (String (byte (128 + v mod 64)) EmptyString))).

Definition isHighSurrogate (c : N) : bool := (55296 <=? c) && (c <=? 56319).
Definition isLowSurrogate (c : N) : bool := (56320 <=? c) && (c <=? 57343).

(** A lone surrogate is written as U+FFFD. *)
Fixpoint utf8 (s : jsstring) : string :=
  match s with
  | [] => EmptyString
  | c :: t =>
      if isHighSurrogate c then
        match t with
        | d :: t' =>
            if isLowSurrogate d
            then utf8_point (65536 + (c - 55296) * 1024 + (d - 56320))
                 ++ utf8 t'
            else utf8_point 65533 ++ utf8 t
        | [] => utf8_point 65533
        end
      else if isLowSurrogate c then utf8_point 65533 ++ utf8 t
      else utf8_point c ++ utf8 t
  end.

End JS.

Import JS.

(** ** Validation helpers (index.ts, lines 5-96) *)

Definition MAX_QUERY_LENGTH : nat := 200.
Definition MAX_ID_LENGTH : nat := 500.
Definition MAX_NODES_IN_GRAPH : nat := 1000.
Definition MIN_QUERY_LENGTH : nat := 1.

(** The object [{ valid, sanitized, error? }]. *)
Record validation := {
  valid : bool;
  sanitized : jsstring;
  error : option string
}.

Definition reject (msg : string) : validation :=
  {| valid := false; sanitized := []; error := Some msg |}.
Definition accept (s : jsstring) : validation :=
  {| valid := true; sanitized := s; error := None |}.

(** [/[\x00-\x08\x0B-\x0C\x0E-\x1F\x7F]/] *)
Definition isControl (c : N) : bool :=
  ((c <=? 8) || ((11 <=? c) && (c <=? 12)) || ((14 <=? c) && (c <=? 31))
   || (c =? 127))%N.

(** [.replace(/[\x00-\x08\x0B-\x0C\x0E-\x1F\x7F]/g, '')] *)
Definition stripControl (s : jsstring) : jsstring :=
  filter (fun c => negb (isControl c)) s.

(** [.replace(/[%_]/g, '\\$&')] *)
Definition escapeLike (s : jsstring) : jsstring :=
  flat_map (fun c => if ((c =? 37) || (c =? 95))%N then [92%N; c] else [c]) s.

(** The class [[a-zA-Z0-9:_/@.\-]]. *)
Definition isIdChar (c : N) : bool :=
  (((97 <=? c) && (c <=? 122)) || ((65 <=? c) && (c <=? 90))
   || ((48 <=? c) && (c <=? 57))
   || (c =? 58) || (c =? 95) || (c =? 47) || (c =? 64) || (c =? 46)
   || (c =? 45))%N.

(** [/^[a-zA-Z0-9:_/@.\-]+$/.test(s)] *)
Definition idPattern (s : jsstring) : bool :=
  match s with
  | [] => false
  | _ :: _ => forallb isIdChar s
  end.

(** The guard of the "Query too short" branch. *)
Definition tooShort (s : jsstring) : bool :=
  (0 <? List.length s)%nat && (List.length s <? MIN_QUERY_LENGTH)%nat.

Definition validateSearchQuery (query : jsvalue) : validation :=
  match query with
  | JSString query =>
      let sanitized := trim query in
      if tooShort sanitized then reject "Query too short (min 1 character)"
      else
        let sanitized :=
          if (MAX_QUERY_LENGTH <? List.length sanitized)%nat
          then substring0 MAX_QUERY_LENGTH sanitized
          else sanitized in
        let sanitized := stripControl sanitized in
        let sanitized := escapeLike sanitized in
        accept sanitized
  | _ => reject "Query must be a string"
  end.

(** [try { decodeURIComponent(nodeId) } catch (e) { nodeId }] *)
Definition decoded (nodeId : jsstring) : jsstring :=
  match decodeURIComponent nodeId with
  | Some d => d
  | None => nodeId
  end.

Definition sanitizeNodeId (nodeId : jsvalue) : validation :=
  match nodeId with
  | JSString [] => reject "Node ID is required"
  | JSString nodeId =>
      let sanitized := decoded nodeId in
      let sanitized := trim sanitized in
      match sanitized with
      | [] => reject "Node ID cannot be empty"
      | _ :: _ =>
          if (MAX_ID_LENGTH <? List.length sanitized)%nat
          then reject "Node ID too long (max 500 characters)"
          else
            let sanitized := stripControl sanitized in
            if negb (idPattern sanitized)
            then reject "Node ID contains invalid characters"
            else accept sanitized
      end
  | _ => reject "Node ID is required"
  end.

(** ** The store: tables [nodes], [edges] and [sources] *)

Local Open Scope string_scope.
Local Open Scope lazy_bool_scope.

Module Node.
Record t := {
  id : string;
  kind : string;
  name : option string;
  package : option string;
  file : option string;
  line : option Z;
  end_line : option Z;
  type_info : option string
}.
End Node.

Module Edge.
Record t := { source : string; target : string; kind : string }.
End Edge.

Module SourceFile.
Record t := { file : string; content : string }.
End SourceFile.

Module Db.
Record t := {
  nodes : list Node.t;
  edges : list Edge.t;
  sources : list SourceFile.t
}.
End Db.

(** ** Replies *)

#[local] Set Warnings "-register-all".

Inductive json :=
| JNull
| JStr (s : string)
| JObj (fields : list (string * json)).

Definition nullable (v : option string) : json :=
  match v with
  | Some s => JStr s
  | None => JNull
  end.

(** [reply.send(payload)] and [reply.code(code).send({ ... })]. *)
Inductive reply (A : Type) :=
| Send (payload : A)
| Fail (code : Z) (body : list (string * json)).
Arguments Send {A} payload.
Arguments Fail {A} code body.

Definition status {A} (r : reply A) : Z :=
  match r with
  | Send _ => 200
  | Fail code _ => code
  end.

Definition payload {A} (r : reply A) : option A :=
  match r with
  | Send p => Some p
  | Fail _ _ => None
  end.

Fixpoint field (k : string) (body : list (string * json)) : option json :=
  match body with
  | [] => None
  | (k', v) :: rest => if (k =? k')%string then Some v else field k rest
  end.

(** [a || b] on a nullable string and on a nullable number. *)
Definition or_string (a : option string) (b : string) : string :=
  match a with
  | None => b
  | Some EmptyString => b
  | Some s => s
  end.

Definition or_number (a : option Z) (b : Z) : Z :=
  match a with
  | None => b
  | Some 0%Z => b
  | Some n => n
  end.

(** ** GET /function/graph *)

Module Row.
Record t := {
  direction : string;
  id : string;
  name : option string;
  package : option string;
  file : option string;
  line : option Z
}.
End Row.

Definition neighbor (direction : string) (n : Node.t) : Row.t :=
  {| Row.direction := direction; Row.id := Node.id n;
     Row.name := Node.name n; Row.package := Node.package n;
     Row.file := Node.file n; Row.line := Node.line n |}.

(** [SELECT 'caller' ... FROM edges e JOIN nodes n ON n.id = e.source
     WHERE e.target = ? AND e.kind = 'call' AND n.kind = 'function'] *)
Definition callerRows (db : Db.t) (functionId : string) : list Row.t :=
  flat_map (fun e =>
    map (neighbor "caller")
      (filter (fun n =>
         (Node.id n =? Edge.source e)%string
         &&& (Edge.target e =? functionId)%string
         &&& (Edge.kind e =? "call")%string
         &&& (Node.kind n =? "function")%string) (Db.nodes db)))
    (Db.edges db).

(** [SELECT 'callee' ... FROM edges e JOIN nodes n ON n.id = e.target
     WHERE e.source = ? AND e.kind = 'call' AND n.kind = 'function'] *)
Definition calleeRows (db : Db.t) (functionId : string) : list Row.t :=
  flat_map (fun e =>
    map (neighbor "callee")
      (filter (fun n =>
         (Node.id n =? Edge.target e)%string
         &&& (Edge.source e =? functionId)%string
         &&& (Edge.kind e =? "call")%string
         &&& (Node.kind n =? "function")%string) (Db.nodes db)))
    (Db.edges db).

(** Text under the BINARY collation; NULL sorts before any text. *)
Definition nameLe (a b : option string) : bool :=
  match a, b with
  | None, _ => true
  | Some _, None => false
  | Some x, Some y => (x <=? y)%string
  end.

(** Two rows in the order of their names. *)
Definition byName (a b : Row.t) : Prop :=
  nameLe (Row.name a) (Row.name b) = true.

(** The sort key of [ORDER BY direction, name]. *)
Definition rowLe (r1 r2 : Row.t) : bool :=
  match (Row.direction r1 ?= Row.direction r2)%string with
  | Lt => true
  | Eq => nameLe (Row.name r1) (Row.name r2)
  | Gt => false
  end.

Section OrderBy.
Context {A : Type} (le : A -> A -> bool).

Fixpoint insertRow (x : A) (l : list A) : list A :=
  match l with
  | [] => [x]
  | y :: t => if le x y then x :: l else y :: insertRow x t
  end.

Fixpoint orderBy (l : list A) : list A :=
  match l with
  | [] => []
  | x :: t => insertRow x (orderBy t)
  end.
End OrderBy.

Definition neighborhoodStmt (db : Db.t) (functionId : string) : list Row.t :=
  orderBy rowLe (callerRows db functionId ++ calleeRows db functionId)%list.

Module GraphNode.
Record t := { id : string; label : string }.
End GraphNode.

Module GraphEdge.
Record t := { id : string; source : string; target : string }.
End GraphEdge.

Module GraphResponse.
Record t := { nodes : list GraphNode.t; edges : list GraphEdge.t }.
End GraphResponse.

(** A [Set<string>] in insertion order. *)
Definition has (s : list string) (x : string) : bool :=
  existsb (String.eqb x) s.
Definition add (s : list string) (x : string) : list string :=
  if has s x then s else (s ++ [x])%list.

Fixpoint mapi_from {A B} (i : nat) (f : A -> nat -> B) (l : list A) : list B :=
  match l with
  | [] => []
  | x :: t => f x i :: mapi_from (S i) f t
  end.
Definition mapi {A B} (f : A -> nat -> B) (l : list A) : list B :=
  mapi_from 0 f l.

Definition decimal (n : nat) : string :=
  NilEmpty.string_of_uint (Nat.to_uint n).

(** The set [nodeIds]: the function, then every neighborhood row. *)
Definition nodeIds (functionRow : Node.t) (rows : list Row.t) : list string :=
  fold_left (fun s row => add s (Row.id row)) rows
    (add [] (Node.id functionRow)).

(** The node-id array bound to the edge statement: [Array.from(nodeIds)],
    then [splice(MAX_NODES_IN_GRAPH)] when it is longer. *)
Definition nodeIdArray (functionRow : Node.t) (rows : list Row.t)
  : list string :=
  let nodeIdArray := nodeIds functionRow rows in
  if (MAX_NODES_IN_GRAPH <? List.length nodeIdArray)%nat
  then firstn MAX_NODES_IN_GRAPH nodeIdArray
  else nodeIdArray.

(** [SELECT e.source, e.target FROM edges e WHERE e.kind = 'call'
     AND e.source IN (...) AND e.target IN (...)] *)
Definition edgesStmt (db : Db.t) (ids : list string) : list Edge.t :=
  filter (fun e =>
    (Edge.kind e =? "call")%string
    &&& has ids (Edge.source e) &&& has ids (Edge.target e)) (Db.edges db).

(** The handler once the id has been validated (lines 217-335). *)
Definition getNeighborhood (db : Db.t) (functionId : jsstring)
  : reply GraphResponse.t :=
  let bound := utf8 functionId in
  let neighborhoodRows := neighborhoodStmt db bound in
  match find (fun n => (Node.id n =? bound)%string
                       && (Node.kind n =? "function")%string) (Db.nodes db)
  with
  | None =>
      match find (fun n => (Node.id n =? bound)%string) (Db.nodes db) with
      | Some anyNode =>
          Fail 400 [("error",
            JStr ("Node exists but is not a function (kind: "
                  ++ Node.kind anyNode ++ ")"))]
      | None => Fail 404 [("error", JStr ("Function not found: " ++ bound))]
      end
  | Some functionRow =>
      let nodes :=
        {| GraphNode.id := Node.id functionRow;
           GraphNode.label :=
             or_string (Node.name functionRow) (Node.id functionRow) |}
        :: map (fun row =>
             {| GraphNode.id := Row.id row;
                GraphNode.label := or_string (Row.name row) (Row.id row) |})
             neighborhoodRows in
      let nodeIdArray := nodeIdArray functionRow neighborhoodRows in
      match nodeIdArray with
      | [] => Send {| GraphResponse.nodes := nodes; GraphResponse.edges := [] |}
      | _ :: _ =>
          let edgeRows := edgesStmt db nodeIdArray in
          let edges :=
            mapi (fun edge index =>
              {| GraphEdge.id := "edge-" ++ decimal index;
                 GraphEdge.source := Edge.source edge;
                 GraphEdge.target := Edge.target edge |}) edgeRows in
          Send {| GraphResponse.nodes := nodes; GraphResponse.edges := edges |}
      end
  end.

Definition functionGraph (db : Db.t) (id : jsvalue) : reply GraphResponse.t :=
  let validation := sanitizeNodeId (or_empty id) in
  if negb (valid validation)
  then Fail 400
         [("error", JStr (or_string (error validation) "Invalid function ID"))]
  else getNeighborhood db (sanitized validation).

(** ** GET /source *)

Module SourceRow.
Record t := {
  file_name : string;
  start_line : Z;
  end_line : Z;
  code : string
}.
End SourceRow.

Definition newline : ascii := "010"%char.
Definition dquote : string := String "034"%char EmptyString.

(** [content.split('\n')] *)
Fixpoint split (s : string) : list string :=
  match s with
  | EmptyString => [EmptyString]
  | String c r =>
      if Ascii.eqb c newline then EmptyString :: split r
      else match split r with
           | h :: t => String c h :: t
           | [] => [String c EmptyString]
           end
  end.

(** [lines.join('\n')] *)
Fixpoint join (lines : list string) : string :=
  match lines with
  | [] => EmptyString
  | [x] => x
  | x :: t => x ++ String newline (join t)
  end.

(** [Array.prototype.slice(start, end)] *)
Definition slice {A} (l : list A) (start final : Z) : list A :=
  let len := Z.of_nat (List.length l) in
  let k := if (start <? 0)%Z then Z.max (len + start) 0 else Z.min start len in
  let final :=
    if (final <? 0)%Z then Z.max (len + final) 0 else Z.min final len in
  firstn (Z.to_nat (final - k)) (skipn (Z.to_nat k) l).

(** Lines 413-424: the slice of the file behind a node. *)
Definition sourceRow (node : Node.t) (file content : string) : SourceRow.t :=
  let lines := split content in
  let length := Z.of_nat (List.length lines) in
  let startLine := (or_number (Node.line node) 1 - 1)%Z in
  let endLine :=
    (or_number (Node.end_line node) (or_number (Node.line node) length)
     - 1)%Z in
  let code := join (slice lines startLine (endLine + 1)) in
  {| SourceRow.file_name := file;
     SourceRow.start_line := or_number (Node.line node) 1;
     SourceRow.end_line :=
       or_number (Node.end_line node) (or_number (Node.line node) length);
     SourceRow.code := code |}.

(** The handler once the id has been validated (lines 353-426). *)
Definition getSource (db : Db.t) (nodeId : jsstring) : reply SourceRow.t :=
  let bound := utf8 nodeId in
  if startsWith nodeId (lit "ext::") then
    match find (fun n => Node.id n =? bound) (Db.nodes db) with
    | Some extNode =>
        Fail 404
          [("error", JStr "External function - source code not available");
           ("message",
            JStr ("This is an external function from "
                  ++ or_string (Node.package extNode) "standard library"
                  ++ ". Source code is not available in the database."));
           ("node_info",
            JObj [("name", nullable (Node.name extNode));
                  ("package", nullable (Node.package extNode));
                  ("type_info", nullable (Node.type_info extNode))])]
    | None =>
        Fail 404 [("error", JStr "External node - source code not available")]
    end
  else
    match find (fun n => Node.id n =? bound) (Db.nodes db) with
    | None => Fail 404 [("error", JStr "Node not found")]
    | Some node =>
        match Node.file node with
        | None | Some EmptyString =>
            Fail 404
              [("error", JStr "Source code not available");
               ("message",
                JStr ("Node " ++ dquote ++ or_string (Node.name node) bound
                      ++ dquote ++ " exists but has no file information. "
                      ++ "This might be a generated or external node."));
               ("node_info",
                JObj [("name", nullable (Node.name node));
                      ("package", nullable (Node.package node))])]
        | Some file =>
            match find (fun s => SourceFile.file s =? file) (Db.sources db)
            with
            | None =>
                Fail 404
                  [("error", JStr "Source file not found");
                   ("message",
                    JStr ("File " ++ dquote ++ file ++ dquote
                          ++ " not found in sources table."));
                   ("file", JStr file)]
            | Some source =>
                Send (sourceRow node file (SourceFile.content source))
            end
        end
    end.

Definition source (db : Db.t) (id : jsvalue) : reply SourceRow.t :=
  let validation := sanitizeNodeId (or_empty id) in
  if negb (valid validation)
  then Fail 400
         [("error", JStr (or_string (error validation) "Invalid node ID"))]
  else getSource db (sanitized validation).

(** ** Further code of the server and of its client *)

(** *** [validateFunctionId] (index.ts, lines 12-33) *)

Module FunctionIdResult.
Record t := { valid : bool; error : option string }.
End FunctionIdResult.

Definition validateFunctionId (id : jsvalue) : FunctionIdResult.t :=
  let invalid msg :=
    {| FunctionIdResult.valid := false; FunctionIdResult.error := Some msg |} in
  match id with
  | JSString [] => invalid "Function ID is required"
  | JSString id =>
      let trimmed := trim id in
      match trimmed with
      | [] => invalid "Function ID cannot be empty"
      | _ :: _ =>
          if (MAX_ID_LENGTH <? List.length trimmed)%nat
          then invalid "Function ID too long (max 500 characters)"
          else if negb (idPattern trimmed)
          then invalid "Function ID contains invalid characters"
          else {| FunctionIdResult.valid := true;
                  FunctionIdResult.error := None |}
      end
  | _ => invalid "Function ID is required"
  end.

(** *** [encodeURIComponent] (ECMA-262, Encode with the unreserved set
    [A-Z a-z 0-9 - _ . ! ~ * ' ( )]), as the validation tests use it *)

Definition isUnescaped (c : N) : bool :=
  (((97 <=? c) && (c <=? 122)) || ((65 <=? c) && (c <=? 90))
   || ((48 <=? c) && (c <=? 57))
   || (c =? 45) || (c =? 95) || (c =? 46) || (c =? 33) || (c =? 126)
   || (c =? 42) || (c =? 39) || (c =? 40) || (c =? 41))%N.

(** An upper-case hexadecimal digit. *)
Definition hexDigit (d : N) : N := (if d <? 10 then 48 + d else 55 + d)%N.

(** ["%XY"] for the octet [b]. *)
Definition percent (b : N) : jsstring :=
  [37%N; hexDigit (b / 16); hexDigit (b mod 16)].

(** The UTF-8 octets of a code point. *)
Definition octets (v : N) : list N :=
  (if v <? 128 then [v]
   else if v <? 2048 then [192 + v / 64; 128 + v mod 64]
   else if v <? 65536 then
     [224 + v / 4096; 128 + (v / 64) mod 64; 128 + v mod 64]
   else
     [240 + v / 262144; 128 + (v / 4096) mod 64; 128 + (v / 64) mod 64;
      128 + v mod 64])%N.

(** The code point of a surrogate pair. *)
Definition codePoint (lead trail : N) : N :=
  (65536 + (lead - 55296) * 1024 + (trail - 56320))%N.

(** [None] stands for the [URIError] thrown on an unpaired surrogate. *)
Fixpoint encodeURIComponent (s : jsstring) : option jsstring :=
  match s with
  | [] => Some []
  | c :: t =>
      if isUnescaped c then option_map (cons c) (encodeURIComponent t)
      else if isHighSurrogate c then
        match t with
        | d :: t' =>
            if isLowSurrogate d
            then option_map
                   (app (flat_map percent (octets (codePoint c d))))
                   (encodeURIComponent t')
            else None
        | [] => None
        end
      else if isLowSurrogate c then None
      else option_map (app (flat_map percent (octets c)))
             (encodeURIComponent t)
  end.

(** *** GET /functions (index.ts, lines 172-204) *)

Module FunctionRow.
Record t := { id : string; name : string }.
End FunctionRow.

Section Functions.
(** The store's [LIKE] operator: [like pattern text] is [text LIKE pattern]. *)
Variable like : string -> string -> bool.

(** [SELECT id, name FROM nodes WHERE kind = 'function' AND name LIKE ?
     LIMIT 50]; a NULL name matches no pattern. *)
Definition functionsStmt (db : Db.t) (pattern : string)
  : list FunctionRow.t :=
  firstn 50
    (flat_map (fun n =>
       match Node.name n with
       | Some name =>
           if (Node.kind n =? "function") &&& like pattern name
           then [{| FunctionRow.id := Node.id n; FunctionRow.name := name |}]
           else []
       | None => []
       end) (Db.nodes db)).

Definition functions (db : Db.t) (q : jsvalue) : reply (list FunctionRow.t) :=
  let validation := validateSearchQuery (or_empty q) in
  if negb (valid validation)
  then Fail 400
         [("error", JStr (or_string (error validation) "Invalid query"))]
  else
    match sanitized validation with
    | [] => Send []
    | sanitizedQuery =>
        Send (functionsStmt db ("%" ++ utf8 sanitizedQuery ++ "%"))
    end.
End Functions.

(** *** The graph component of the client: what it draws of a response *)

Module Graph.

Definition MAX_GRAPH_NODES : Z := 60.

(** [graphData.nodes.slice(0, MAX_GRAPH_NODES)] *)
Definition limitedNodes (graphData : GraphResponse.t) : list GraphNode.t :=
  slice (GraphResponse.nodes graphData) 0 MAX_GRAPH_NODES.

(** [new Set(limitedNodes.map(n => n.data.id))] *)
Definition nodeIds (graphData : GraphResponse.t) : list string :=
  fold_left add (map GraphNode.id (limitedNodes graphData)) [].

(** [graphData.edges.filter(e => nodeIds.has(e.data.source)
     && nodeIds.has(e.data.target))] *)
Definition limitedEdges (graphData : GraphResponse.t) : list GraphEdge.t :=
  filter (fun e =>
    has (nodeIds graphData) (GraphEdge.source e)
    &&& has (nodeIds graphData) (GraphEdge.target e))
    (GraphResponse.edges graphData).

End Graph.

(** ** Sample stores *)

Definition fn (id name : string) : Node.t :=
  {| Node.id := id; Node.kind := "function"; Node.name := Some name;
     Node.package := Some "pkg"; Node.file := Some "f.go";
     Node.line := Some 1%Z; Node.end_line := Some 2%Z;
     Node.type_info := None |}.

Definition call (source target : string) : Edge.t :=
  {| Edge.source := source; Edge.target := target; Edge.kind := "call" |}.

(** [alpha] calls [f], and [f] calls [beta]. *)
Definition chainDb : Db.t :=
  {| Db.nodes := [fn "pkg::f" "f"; fn "pkg::a" "alpha"; fn "pkg::b" "beta"];
     Db.edges := [call "pkg::a" "pkg::f"; call "pkg::f" "pkg::b"];
     Db.sources := [] |}.

Definition typeNode : Node.t :=
  {| Node.id := "pkg::T"; Node.kind := "type"; Node.name := Some "T";
     Node.package := Some "pkg"; Node.file := Some "t.go";
     Node.line := Some 3%Z; Node.end_line := Some 4%Z;
     Node.type_info := None |}.

Definition typeDb : Db.t :=
  {| Db.nodes := [typeNode]; Db.edges := []; Db.sources := [] |}.

Definition printlnNode : Node.t :=
  {| Node.id := "ext::fmt.Println"; Node.kind := "function";
     Node.name := Some "Println"; Node.package := Some "fmt";
     Node.file := None; Node.line := None; Node.end_line := None;
     Node.type_info := Some "func(a ...any) (n int, err error)" |}.

Definition twentyLines : list string :=
  map (fun i => "line " ++ decimal i) (seq 1 20).

Definition sliceNode (id : string) (line end_line : option Z) : Node.t :=
  {| Node.id := id; Node.kind := "function"; Node.name := Some id;
     Node.package := Some "pkg"; Node.file := Some "f.go";
     Node.line := line; Node.end_line := end_line;
     Node.type_info := None |}.

Definition sliceDb : Db.t :=
  {| Db.nodes := [sliceNode "pkg::f" (Some 10%Z) (Some 12%Z);
                  sliceNode "pkg::g" (Some 5%Z) None;
                  sliceNode "pkg::h" None None];
     Db.edges := [];
     Db.sources := [{| SourceFile.file := "f.go";
                       SourceFile.content := join twentyLines |}] |}.

Definition callerId (i : nat) : string := "pkg::c" ++ decimal i.

(** A function [f] with 1000 distinct callers. *)
Definition fanInDb : Db.t :=
  {| Db.nodes :=
       fn "pkg::f" "f"
       :: map (fun i => fn (callerId i) ("c" ++ decimal i)) (seq 1 1000);
     Db.edges := map (fun i => call (callerId i) "pkg::f") (seq 1 1000);
     Db.sources := [] |}.

(** [f] calls itself; [f] and [g] call each other. *)
Definition mutualDb : Db.t :=
  {| Db.nodes := [fn "pkg::f" "f"; fn "pkg::g" "g"];
     Db.edges := [call "pkg::f" "pkg::g"; call "pkg::g" "pkg::f";
                  call "pkg::f" "pkg::f"];
     Db.sources := [] |}.

(** * Properties *)

(** ** Sample evaluations *)

Example decode_A : decodeURIComponent (lit "%41") = Some (lit "A").
Proof. reflexivity. Qed.
Example decode_bad : decodeURIComponent (lit "%E0%A4%A") = None.
Proof. reflexivity. Qed.
Example decode_e : decodeURIComponent (lit "a%C3%A9") = Some [97; 233]%N.
Proof. reflexivity. Qed.
Example decode_smile :
  decodeURIComponent (lit "%F0%9F%98%80") = Some [55357; 56832]%N.
Proof. reflexivity. Qed.
Example decode_overlong : decodeURIComponent (lit "%C0%80") = None.
Proof. reflexivity. Qed.
Example decode_surr : decodeURIComponent (lit "%ED%A0%80") = None.
Proof. reflexivity. Qed.
Example decode_euro : decodeURIComponent (lit "%E2%82%AC") = Some [8364]%N.
Proof. reflexivity. Qed.
Example decode_pct : decodeURIComponent (lit "100%") = None.
Proof. reflexivity. Qed.

Example search_percent :
  validateSearchQuery (JSString (lit "test%query"))
  = accept (lit "test\%query").
Proof. reflexivity. Qed.
Example search_trim :
  validateSearchQuery (JSString (lit "  Collect  ")) = accept (lit "Collect").
Proof. reflexivity. Qed.
Example node_encoded :
  sanitizeNodeId (JSString (lit "package%3A%3Afunction%40file.go%3A10%3A5"))
  = accept (lit "package::function@file.go:10:5").
Proof. reflexivity. Qed.
Example node_script :
  sanitizeNodeId (JSString (lit "node<script>"))
  = reject "Node ID contains invalid characters".
Proof. reflexivity. Qed.

(** ** Helper lemmas on the validation helpers *)

Ltac bools H :=
  rewrite ?orb_true_iff, ?andb_true_iff, ?N.leb_le, ?N.eqb_eq in H.

Lemma isIdChar_not_percent c : isIdChar c = true -> c <> 37%N.
Proof. unfold isIdChar. intros H. bools H. lia. Qed.

Lemma isIdChar_not_space c : isIdChar c = true -> isWhiteSpace c = false.
Proof.
  unfold isIdChar. intros H. bools H.
  apply not_true_is_false. unfold isWhiteSpace. intros W. bools W. lia.
Qed.

Lemma isIdChar_not_control c : isIdChar c = true -> isControl c = false.
Proof.
  unfold isIdChar. intros H. bools H.
  apply not_true_is_false. unfold isControl. intros W. bools W. lia.
Qed.

Lemma tooShort_never s : tooShort s = false.
Proof. unfold tooShort. destruct (List.length s); reflexivity. Qed.

Lemma decode_plain s :
  Forall (fun c => c <> 37%N) s -> decodeURIComponent s = Some s.
Proof.
  unfold decodeURIComponent.
  induction 1 as [|c t Hc _ IH]; [reflexivity|].
  cbn [decode]. destruct (N.eqb_spec c 37) as [E|_]; [contradiction|].
  now rewrite IH.
Qed.

Lemma dropWhile_stop p s :
  Forall (fun c => p c = false) s -> dropWhile p s = s.
Proof. destruct 1 as [|c t Hc _]; [reflexivity|]. cbn. now rewrite Hc. Qed.

Lemma trim_fixed s :
  Forall (fun c => isWhiteSpace c = false) s -> trim s = s.
Proof.
  intros H. unfold trim, trimStart, trimEnd.
  rewrite (dropWhile_stop _ s H).
  rewrite dropWhile_stop by now apply Forall_rev.
  apply rev_involutive.
Qed.

Lemma stripControl_fixed s :
  Forall (fun c => isControl c = false) s -> stripControl s = s.
Proof.
  unfold stripControl.
  induction 1 as [|c t Hc _ IH]; [reflexivity|].
  cbn. now rewrite Hc, IH.
Qed.

Lemma idPattern_chars s :
  idPattern s = true -> s <> [] /\ Forall (fun c => isIdChar c = true) s.
Proof.
  destruct s as [|c t]; [discriminate|].
  unfold idPattern. intros H. split; [discriminate|].
  apply Forall_forall. now apply forallb_forall.
Qed.

Lemma idPattern_outsider s c :
  In c s -> isIdChar c = false -> idPattern s = false.
Proof.
  intros Hin Hc. apply not_true_is_false. intros H.
  apply idPattern_chars in H as [_ H].
  rewrite Forall_forall in H. specialize (H c Hin). congruence.
Qed.

(** What an accepted node id looks like. *)
Lemma sanitizeNodeId_accept v s :
  sanitizeNodeId v = accept s ->
  exists raw, v = JSString raw
    /\ s = stripControl (trim (decoded raw))
    /\ (List.length (trim (decoded raw)) <= MAX_ID_LENGTH)%nat
    /\ idPattern s = true.
Proof.
  destruct v as [raw| |items]; try discriminate.
  destruct raw as [|x r]; [discriminate|].
  unfold sanitizeNodeId.
  destruct (trim (decoded (x :: r))) as [|y ys] eqn:Ed; [discriminate|].
  destruct (Nat.ltb_spec MAX_ID_LENGTH (List.length (y :: ys))) as [|Hlen];
    [discriminate|].
  destruct (idPattern (stripControl (y :: ys))) eqn:Ep; [|discriminate].
  cbn [negb]. intros [= <-]. exists (x :: r). rewrite Ed. auto.
Qed.

(** ** Search terms *)

(** C9: [validateSearchQuery] never fails on a string: it returns
    [valid = true] with a sanitized output, and the guard of its
    "Query too short" branch is false for every string. *)
Theorem validateSearchQuery_string_valid (query : jsstring) :
  tooShort (trim query) = false
  /\ exists out,
       validateSearchQuery (JSString query)
       = {| valid := true; sanitized := out; error := None |}.
Proof.
  split; [apply tooShort_never|].
  unfold validateSearchQuery. rewrite tooShort_never.
  eexists. reflexivity.
Qed.

(** The claim of C4 fails on a term of 201 letters [a]: it is cut to its
    first 200 units and accepted. *)
Lemma validateSearchQuery_201_accepted :
  (MAX_QUERY_LENGTH < List.length (trim (repeat 97%N 201)))%nat
  /\ validateSearchQuery (JSString (repeat 97%N 201))
     = accept (repeat 97%N 200).
Proof. split; [vm_compute; lia | vm_compute; reflexivity]. Qed.

(** C4 (amended): a search term whose trimmed length exceeds 200 units is
    accepted; its sanitized form is computed from the first 200 units of
    the trimmed term (control characters removed, [%] and [_] escaped). *)
Theorem validateSearchQuery_truncates (query : jsstring) :
  (MAX_QUERY_LENGTH < List.length (trim query))%nat ->
  validateSearchQuery (JSString query)
  = accept (escapeLike
              (stripControl (substring0 MAX_QUERY_LENGTH (trim query)))).
Proof.
  intros H. unfold validateSearchQuery. rewrite tooShort_never.
  apply Nat.ltb_lt in H. now rewrite H.
Qed.

Lemma validateSearchQuery_truncates_witness :
  (MAX_QUERY_LENGTH < List.length (trim (repeat 97%N 201)))%nat
  /\ validateSearchQuery (JSString (repeat 97%N 201))
     = accept (escapeLike
                 (stripControl
                    (substring0 MAX_QUERY_LENGTH (trim (repeat 97%N 201))))).
Proof.
  assert (H : (MAX_QUERY_LENGTH < List.length (trim (repeat 97%N 201)))%nat)
    by (vm_compute; lia).
  split; [exact H|].
  exact (validateSearchQuery_truncates (repeat 97%N 201) H).
Defined.

(** ** Node identifiers *)

(** The claim of C5 fails on [" a"]: the space is outside the allowed
    class, yet the id is accepted once trimmed. *)
Lemma sanitizeNodeId_leading_space_accepted :
  In 32%N (lit " a") /\ isIdChar 32 = false
  /\ sanitizeNodeId (JSString (lit " a")) = accept (lit "a").
Proof. repeat split. now left. Qed.

(** C5 (amended): when the decoded and trimmed form of a string is at most
    500 units long and contains a character that is neither in the allowed
    class nor a stripped control character, the string is rejected with
    the reason "Node ID contains invalid characters". *)
Theorem sanitizeNodeId_invalid_characters (raw : jsstring) (c : N) :
  (List.length (trim (decoded raw)) <= MAX_ID_LENGTH)%nat ->
  In c (trim (decoded raw)) ->
  isIdChar c = false ->
  isControl c = false ->
  sanitizeNodeId (JSString raw) = reject "Node ID contains invalid characters".
Proof.
  intros Hlen Hin Hid Hctl.
  destruct raw as [|x r]; [destruct Hin|].
  unfold sanitizeNodeId.
  destruct (trim (decoded (x :: r))) as [|y ys] eqn:Ed; [destruct Hin|].
  destruct (Nat.ltb_spec MAX_ID_LENGTH (List.length (y :: ys))) as [Hgt|_];
    [lia|].
  rewrite (idPattern_outsider (stripControl (y :: ys)) c); [reflexivity| |exact Hid].
  apply filter_In. split; [exact Hin|]. now rewrite Hctl.
Qed.

Lemma sanitizeNodeId_invalid_characters_witness :
  In 59%N (trim (decoded (lit "node; DROP TABLE")))
  /\ sanitizeNodeId (JSString (lit "node; DROP TABLE"))
     = reject "Node ID contains invalid characters".
Proof.
  assert (Hin : In 59%N (trim (decoded (lit "node; DROP TABLE"))))
    by (vm_compute; tauto).
  split; [exact Hin|].
  apply (sanitizeNodeId_invalid_characters (lit "node; DROP TABLE") 59%N).
  - vm_compute. lia.
  - exact Hin.
  - reflexivity.
  - reflexivity.
Defined.

(** C10: [sanitizeNodeId] is idempotent on what it accepts: an accepted
    output [s] has no percent sign, is trimmed, has no control character
    and is at most 500 units long, and [sanitizeNodeId s] accepts [s]
    unchanged. *)
Theorem sanitizeNodeId_idempotent (v : jsvalue) (s : jsstring) :
  sanitizeNodeId v = accept s ->
  ~ In 37%N s /\ trim s = s /\ stripControl s = s
  /\ (List.length s <= MAX_ID_LENGTH)%nat
  /\ sanitizeNodeId (JSString s) = accept s.
Proof.
  intros H. apply sanitizeNodeId_accept in H as (raw & _ & Es & Hlen & Hp).
  pose proof (idPattern_chars s Hp) as [Hne Hall].
  assert (Hpct : Forall (fun c => c <> 37%N) s)
    by (eapply Forall_impl; [|exact Hall]; apply isIdChar_not_percent).
  assert (Htrim : trim s = s).
  { apply trim_fixed. eapply Forall_impl; [|exact Hall].
    apply isIdChar_not_space. }
  assert (Hstrip : stripControl s = s).
  { apply stripControl_fixed. eapply Forall_impl; [|exact Hall].
    apply isIdChar_not_control. }
  assert (Hs : (List.length s <= MAX_ID_LENGTH)%nat).
  { rewrite Es. unfold stripControl.
    etransitivity; [apply filter_length_le|exact Hlen]. }
  repeat split; auto.
  - rewrite Forall_forall in Hpct. intros Hin. now apply (Hpct _ Hin).
  - destruct s as [|z zs]; [contradiction|].
    unfold sanitizeNodeId, decoded.
    rewrite (decode_plain _ Hpct), Htrim.
    destruct (Nat.ltb_spec MAX_ID_LENGTH (List.length (z :: zs))); [lia|].
    now rewrite Hstrip, Hp.
Qed.

Lemma sanitizeNodeId_idempotent_witness :
  sanitizeNodeId (JSString (lit " ext%3A%3Apath%2Ffilepath.Base "))
  = accept (lit "ext::path/filepath.Base")
  /\ sanitizeNodeId (JSString (lit "ext::path/filepath.Base"))
     = accept (lit "ext::path/filepath.Base").
Proof.
  split; [reflexivity|].
  apply (sanitizeNodeId_idempotent
           (JSString (lit " ext%3A%3Apath%2Ffilepath.Base "))
           (lit "ext::path/filepath.Base")).
  reflexivity.
Defined.

(** ** Helper lemmas on the handlers *)

Lemma functionGraph_validated db raw functionId :
  sanitizeNodeId (or_empty raw) = accept functionId ->
  functionGraph db raw = getNeighborhood db functionId.
Proof. intros H. unfold functionGraph. now rewrite H. Qed.

Lemma source_validated db raw nodeId :
  sanitizeNodeId (or_empty raw) = accept nodeId ->
  source db raw = getSource db nodeId.
Proof. intros H. unfold source. now rewrite H. Qed.

(** Under a unique key, two rows with the same key are the same row. *)
Lemma unique_key {A} (key : A -> string) (l : list A) x y :
  NoDup (map key l) -> In x l -> In y l -> key x = key y -> x = y.
Proof.
  induction l as [|a l IH]; cbn; [tauto|].
  intros Hnd Hx Hy E. inversion Hnd as [|? ? Hnot Hnd']; subst.
  destruct Hx as [->|Hx], Hy as [->|Hy]; auto.
  - exfalso. apply Hnot. rewrite E. now apply in_map.
  - exfalso. apply Hnot. rewrite <- E. now apply in_map.
Qed.

Lemma find_present {A} (f : A -> bool) (l : list A) x :
  In x l -> f x = true -> exists y, find f l = Some y.
Proof.
  intros Hin Hf. destruct (find f l) as [y|] eqn:E; [now exists y|].
  rewrite (find_none _ _ E x Hin) in Hf. discriminate.
Qed.

(** ** GetNeighborhood: not found and wrong kind *)

(** C6: for a validated id, when no node has that id the reply is the 404
    "Function not found"; when (ids being unique) the node with that id has
    a kind other than [function], the reply is the 400 error that names
    that kind.  The two replies differ in their status. *)
Theorem getNeighborhood_not_found_or_wrong_kind
    (db : Db.t) (raw : jsvalue) (functionId : jsstring) :
  sanitizeNodeId (or_empty raw) = accept functionId ->
  ((forall n, In n (Db.nodes db) -> Node.id n <> utf8 functionId) ->
   functionGraph db raw
   = Fail 404 [("error", JStr ("Function not found: " ++ utf8 functionId))])
  /\ (forall n,
        NoDup (map Node.id (Db.nodes db)) ->
        In n (Db.nodes db) ->
        Node.id n = utf8 functionId ->
        Node.kind n <> "function" ->
        functionGraph db raw
        = Fail 400
            [("error",
              JStr ("Node exists but is not a function (kind: "
                    ++ Node.kind n ++ ")"))]).
Proof.
  intros Hv. rewrite (functionGraph_validated _ _ _ Hv).
  unfold getNeighborhood. split.
  - intros Hnone.
    destruct (find _ (Db.nodes db)) as [m|] eqn:E1.
    { apply find_some in E1 as [Hin Hm].
      apply andb_true_iff in Hm as [Hm _]. apply String.eqb_eq in Hm.
      now destruct (Hnone m Hin). }
    destruct (find (fun n => Node.id n =? utf8 functionId) (Db.nodes db))
      as [m|] eqn:E2; [|reflexivity].
    apply find_some in E2 as [Hin Hm]. apply String.eqb_eq in Hm.
    now destruct (Hnone m Hin).
  - intros n Hnd Hin Hid Hkind.
    destruct (find _ (Db.nodes db)) as [m|] eqn:E1.
    { apply find_some in E1 as [Hm Hf].
      apply andb_true_iff in Hf as [Hf1 Hf2].
      apply String.eqb_eq in Hf1, Hf2.
      assert (m = n) by (eapply unique_key; eauto; congruence).
      subst m. contradiction. }
    destruct (find_present (fun n => Node.id n =? utf8 functionId)
                (Db.nodes db) n Hin) as [m E2].
    { now apply String.eqb_eq. }
    rewrite E2. apply find_some in E2 as [Hm Hf]. apply String.eqb_eq in Hf.
    assert (m = n) by (eapply unique_key; eauto; congruence).
    now subst m.
Qed.

Lemma getNeighborhood_not_found_or_wrong_kind_witness :
  functionGraph typeDb (JSString (lit "pkg::f"))
  = Fail 404 [("error", JStr "Function not found: pkg::f")]
  /\ functionGraph typeDb (JSString (lit "pkg::T"))
     = Fail 400
         [("error", JStr "Node exists but is not a function (kind: type)")].
Proof.
  split.
  - apply (proj1 (getNeighborhood_not_found_or_wrong_kind
                    typeDb (JSString (lit "pkg::f")) (lit "pkg::f") eq_refl)).
    cbn. intros n [<-|[]]. discriminate.
  - apply (proj2 (getNeighborhood_not_found_or_wrong_kind
                    typeDb (JSString (lit "pkg::T")) (lit "pkg::T") eq_refl)
             typeNode).
    + cbn. repeat constructor. tauto.
    + now left.
    + reflexivity.
    + discriminate.
Defined.

(** ** GetSource: external nodes *)

(** The claim of C8 fails when the store has no row for the external id:
    the 404 body then holds an error message only, and no metadata. *)
Lemma source_external_without_row :
  sanitizeNodeId (or_empty (JSString (lit "ext::fmt.Println")))
  = accept (lit "ext::fmt.Println")
  /\ startsWith (lit "ext::fmt.Println") (lit "ext::") = true
  /\ source {| Db.nodes := []; Db.edges := []; Db.sources := [] |}
       (JSString (lit "ext::fmt.Println"))
     = Fail 404 [("error", JStr "External node - source code not available")]
  /\ field "node_info"
       [("error", JStr "External node - source code not available")] = None.
Proof. repeat split. Qed.

(** C8 (amended): for a validated id that starts with [ext::], the reply is
    always a 404 and never a source row; its body carries the node's name,
    package and type signature when the store has a row for the id, and
    only an error message when it has none. *)
Theorem source_external (db : Db.t) (raw : jsvalue) (nodeId : jsstring) :
  sanitizeNodeId (or_empty raw) = accept nodeId ->
  startsWith nodeId (lit "ext::") = true ->
  exists body,
    source db raw = Fail 404 body
    /\ match find (fun n => Node.id n =? utf8 nodeId) (Db.nodes db) with
       | Some extNode =>
           field "node_info" body
           = Some (JObj [("name", nullable (Node.name extNode));
                         ("package", nullable (Node.package extNode));
                         ("type_info", nullable (Node.type_info extNode))])
       | None =>
           body = [("error", JStr "External node - source code not available")]
       end.
Proof.
  intros Hv Hext. rewrite (source_validated _ _ _ Hv).
  unfold getSource. rewrite Hext.
  destruct (find _ (Db.nodes db)) as [extNode|];
    eexists; split; reflexivity.
Qed.

Lemma source_external_witness :
  exists body,
    source {| Db.nodes := [printlnNode]; Db.edges := []; Db.sources := [] |}
      (JSString (lit "ext::fmt.Println")) = Fail 404 body
    /\ field "node_info" body
       = Some (JObj [("name", JStr "Println"); ("package", JStr "fmt");
                     ("type_info",
                      JStr "func(a ...any) (n int, err error)")]).
Proof.
  apply (source_external
           {| Db.nodes := [printlnNode]; Db.edges := []; Db.sources := [] |}
           (JSString (lit "ext::fmt.Println")) (lit "ext::fmt.Println"));
    reflexivity.
Defined.

(** ** GetSource: the line slice *)

Lemma slice_range {A} (l : list A) (a b : nat) :
  (a <= b <= List.length l)%nat ->
  slice l (Z.of_nat a) (Z.of_nat b) = firstn (b - a) (skipn a l).
Proof.
  intros H. unfold slice.
  destruct (Z.ltb_spec (Z.of_nat a) 0); [lia|].
  destruct (Z.ltb_spec (Z.of_nat b) 0); [lia|].
  rewrite !Z.min_l by lia.
  rewrite <- Nat2Z.inj_sub by lia. now rewrite !Nat2Z.id.
Qed.

Lemma split_cons s : exists h t, split s = h :: t.
Proof.
  induction s as [|c r (h & t & E)]; cbn; [now eauto|].
  destruct (Ascii.eqb c newline); [now eauto|].
  rewrite E. eauto.
Qed.

Lemma join_cons x h t : join (x :: h :: t) = x ++ String newline (join (h :: t)).
Proof. reflexivity. Qed.

Lemma join_head c h t : join (String c h :: t) = String c (join (h :: t)).
Proof. destruct t; reflexivity. Qed.

Lemma join_split s : join (split s) = s.
Proof.
  induction s as [|c r IH]; [reflexivity|].
  cbn [split]. destruct (split_cons r) as (h & t & E).
  rewrite E in *.
  destruct (Ascii.eqb_spec c newline) as [->|_].
  - rewrite join_cons, IH. reflexivity.
  - rewrite join_head, IH. reflexivity.
Qed.

(** C7: on a non-external node whose file is in the store: with [line = 10]
    and [end_line = 12] over a 20-line file the reply holds lines 10 to 12
    (three lines) and the numbers 10 and 12; with [line = 5] and no
    [end_line] it holds line 5 alone; with neither, it holds the file from
    line 1 to its last line. *)
Theorem source_line_slice
    (db : Db.t) (raw : jsvalue) (nodeId : jsstring)
    (node : Node.t) (file : string) (src : SourceFile.t) :
  sanitizeNodeId (or_empty raw) = accept nodeId ->
  startsWith nodeId (lit "ext::") = false ->
  find (fun n => Node.id n =? utf8 nodeId) (Db.nodes db) = Some node ->
  Node.file node = Some file ->
  file <> EmptyString ->
  find (fun s => SourceFile.file s =? file) (Db.sources db) = Some src ->
  let lines := split (SourceFile.content src) in
  (Node.line node = Some 10%Z -> Node.end_line node = Some 12%Z ->
   List.length lines = 20%nat ->
   source db raw
   = Send {| SourceRow.file_name := file;
             SourceRow.start_line := 10; SourceRow.end_line := 12;
             SourceRow.code :=
               join [nth 9 lines EmptyString; nth 10 lines EmptyString;
                     nth 11 lines EmptyString] |})
  /\ (Node.line node = Some 5%Z -> Node.end_line node = None ->
      (5 <= List.length lines)%nat ->
      source db raw
      = Send {| SourceRow.file_name := file;
                SourceRow.start_line := 5; SourceRow.end_line := 5;
                SourceRow.code := nth 4 lines EmptyString |})
  /\ (Node.line node = None -> Node.end_line node = None ->
      source db raw
      = Send {| SourceRow.file_name := file;
                SourceRow.start_line := 1;
                SourceRow.end_line := Z.of_nat (List.length lines);
                SourceRow.code := SourceFile.content src |}).
Proof.
  intros Hv Hext Hnode Hfile Hne Hsrc lines.
  rewrite (source_validated _ _ _ Hv).
  unfold getSource. rewrite Hext, Hnode, Hfile.
  destruct file as [|c f]; [contradiction|].
  rewrite Hsrc. unfold sourceRow. fold lines.
  repeat split.
  - intros -> -> Hlen. cbn [or_number].
    change (10 - 1)%Z with (Z.of_nat 9).
    change (12 - 1 + 1)%Z with (Z.of_nat 12).
    rewrite slice_range by lia.
    do 12 (destruct lines as [|? lines]; [discriminate|]).
    reflexivity.
  - intros -> -> Hlen. cbn [or_number].
    change (5 - 1 + 1)%Z with (Z.of_nat 5).
    change (5 - 1)%Z with (Z.of_nat 4).
    rewrite slice_range by lia.
    do 5 (destruct lines as [|? lines]; [cbn in Hlen; lia|]).
    reflexivity.
  - intros -> ->. cbn [or_number].
    change (1 - 1)%Z with (Z.of_nat 0).
    replace (Z.of_nat (List.length lines) - 1 + 1)%Z
      with (Z.of_nat (List.length lines)) by lia.
    rewrite slice_range by lia.
    cbn [skipn]. rewrite Nat.sub_0_r, firstn_all.
    unfold lines. now rewrite join_split.
Qed.

Lemma source_line_slice_witness :
  source sliceDb (JSString (lit "pkg::f"))
  = Send {| SourceRow.file_name := "f.go";
            SourceRow.start_line := 10; SourceRow.end_line := 12;
            SourceRow.code := join ["line 10"; "line 11"; "line 12"] |}
  /\ source sliceDb (JSString (lit "pkg::g"))
     = Send {| SourceRow.file_name := "f.go";
               SourceRow.start_line := 5; SourceRow.end_line := 5;
               SourceRow.code := "line 5" |}
  /\ source sliceDb (JSString (lit "pkg::h"))
     = Send {| SourceRow.file_name := "f.go";
               SourceRow.start_line := 1; SourceRow.end_line := 20;
               SourceRow.code := join twentyLines |}.
Proof.
  assert (Hne : "f.go" <> EmptyString) by discriminate.
  split; [|split].
  - exact (proj1 (source_line_slice sliceDb (JSString (lit "pkg::f"))
                    (lit "pkg::f") _ "f.go" _
                    eq_refl eq_refl eq_refl eq_refl Hne eq_refl)
             eq_refl eq_refl eq_refl).
  - exact (proj1 (proj2 (source_line_slice sliceDb (JSString (lit "pkg::g"))
                           (lit "pkg::g") _ "f.go" _
                           eq_refl eq_refl eq_refl eq_refl Hne eq_refl))
             eq_refl eq_refl (proj1 (Nat.leb_le 5 20) eq_refl)).
  - exact (proj2 (proj2 (source_line_slice sliceDb (JSString (lit "pkg::h"))
                           (lit "pkg::h") _ "f.go" _
                           eq_refl eq_refl eq_refl eq_refl Hne eq_refl))
             eq_refl eq_refl).
Defined.

(** ** The order of the neighborhood rows *)

Lemma compare_refl s : (s ?= s) = Eq.
Proof.
  pose proof (String.compare_antisym s s) as H.
  destruct (s ?= s); [reflexivity | discriminate | discriminate].
Qed.

Lemma compare_lt_trans a b c :
  (a ?= b) = Lt -> (b ?= c) = Lt -> (a ?= c) = Lt.
Proof.
  intros H1 H2.
  apply String_as_OT.cmp_lt in H1. apply String_as_OT.cmp_lt in H2.
  apply String_as_OT.cmp_lt. eapply String_as_OT.lt_trans; eassumption.
Qed.

Lemma leb_trans a b c :
  (a <=? b) = true -> (b <=? c) = true -> (a <=? c) = true.
Proof.
  unfold String.leb.
  destruct (a ?= b) eqn:E1; [|destruct (b ?= c) eqn:E2|]; try discriminate.
  - apply String.compare_eq_iff in E1. now subst.
  - apply String.compare_eq_iff in E2. subst. now rewrite E1.
  - now rewrite (compare_lt_trans _ _ _ E1 E2).
Qed.

Lemma nameLe_trans a b c :
  nameLe a b = true -> nameLe b c = true -> nameLe a c = true.
Proof.
  destruct a, b, c; cbn; try discriminate; auto. apply leb_trans.
Qed.

Lemma nameLe_total a b : nameLe a b = true \/ nameLe b a = true.
Proof. destruct a, b; cbn; auto. apply String.leb_total. Qed.

Lemma rowLe_trans r1 r2 r3 :
  rowLe r1 r2 = true -> rowLe r2 r3 = true -> rowLe r1 r3 = true.
Proof.
  unfold rowLe.
  destruct (Row.direction r1 ?= Row.direction r2) eqn:E1; try discriminate;
    destruct (Row.direction r2 ?= Row.direction r3) eqn:E2; try discriminate.
  - apply String.compare_eq_iff in E1. rewrite E1, E2. apply nameLe_trans.
  - apply String.compare_eq_iff in E1. now rewrite E1, E2.
  - apply String.compare_eq_iff in E2. now rewrite <- E2, E1.
  - now rewrite (compare_lt_trans _ _ _ E1 E2).
Qed.

Lemma rowLe_total r1 r2 : rowLe r1 r2 = true \/ rowLe r2 r1 = true.
Proof.
  unfold rowLe. rewrite (String.compare_antisym (Row.direction r2)).
  destruct (Row.direction r1 ?= Row.direction r2); cbn; auto.
  apply nameLe_total.
Qed.

Section OrderByFacts.
Context {A : Type} (le : A -> A -> bool).
Hypothesis le_total : forall a b, le a b = true \/ le b a = true.
Hypothesis le_trans :
  forall a b c, le a b = true -> le b c = true -> le a c = true.

Let leP (a b : A) : Prop := le a b = true.

Lemma insertRow_In x l y : In y (insertRow le x l) <-> y = x \/ In y l.
Proof.
  induction l as [|z t IH]; cbn.
  - intuition.
  - destruct (le x z); cbn; [intuition|]. rewrite IH. intuition.
Qed.

Lemma orderBy_In l y : In y (orderBy le l) <-> In y l.
Proof.
  induction l as [|x t IH]; cbn; [tauto|].
  rewrite insertRow_In, IH. intuition.
Qed.

Lemma orderBy_length l : List.length (orderBy le l) = List.length l.
Proof.
  assert (Hins : forall x t,
             List.length (insertRow le x t) = S (List.length t)).
  { intros x t. induction t as [|z t IH]; cbn; [reflexivity|].
    destruct (le x z); cbn; [reflexivity|]. now rewrite IH. }
  induction l as [|x t IH]; cbn; [reflexivity|]. now rewrite Hins, IH.
Qed.

Lemma insertRow_sorted x l :
  StronglySorted leP l -> StronglySorted leP (insertRow le x l).
Proof.
  induction 1 as [|z t Hs IH Hall]; cbn.
  - constructor; constructor.
  - destruct (le x z) eqn:E.
    + constructor; [now constructor|]. constructor; [exact E|].
      eapply Forall_impl; [|exact Hall]. intros w Hw.
      exact (le_trans _ _ _ E Hw).
    + constructor; [exact IH|].
      apply Forall_forall. intros w Hw. apply insertRow_In in Hw.
      destruct Hw as [->|Hw].
      * destruct (le_total x z) as [H|H]; [congruence|exact H].
      * rewrite Forall_forall in Hall. now apply Hall.
Qed.

Lemma orderBy_sorted l : StronglySorted leP (orderBy le l).
Proof.
  induction l as [|x t IH]; cbn; [constructor|].
  now apply insertRow_sorted.
Qed.
End OrderByFacts.

Lemma neighborhoodStmt_directions db functionId :
  Forall (fun r => Row.direction r = "callee" \/ Row.direction r = "caller")
    (neighborhoodStmt db functionId).
Proof.
  apply Forall_forall. intros r Hr.
  unfold neighborhoodStmt in Hr. apply orderBy_In in Hr.
  apply in_app_or in Hr as [Hr|Hr];
    apply in_flat_map in Hr as (e & _ & Hr);
    apply in_map_iff in Hr as (n & <- & _); cbn; auto.
Qed.

(** A list sorted by [(direction, name)] whose directions are [callee] or
    [caller] is its callee rows followed by its caller rows, each sorted
    by name. *)
Lemma sorted_rows_split (l : list Row.t) :
  StronglySorted (fun a b => rowLe a b = true) l ->
  Forall (fun r => Row.direction r = "callee" \/ Row.direction r = "caller") l ->
  exists callees callers,
    l = (callees ++ callers)%list
    /\ Forall (fun r => Row.direction r = "callee") callees
    /\ Forall (fun r => Row.direction r = "caller") callers
    /\ StronglySorted byName callees
    /\ StronglySorted byName callers.
Proof.
  induction 1 as [|x t Hs IH Hall]; intros Hd.
  - exists [], []. repeat split; constructor.
  - inversion Hd as [|? ? Hx Ht]; subst.
    destruct (IH Ht) as (cs & rs & -> & Hcs & Hrs & Scs & Srs).
    destruct Hx as [Hx|Hx].
    + exists (x :: cs), rs. repeat split; auto.
      constructor; [exact Scs|].
      apply Forall_app in Hall as [Hall _].
      rewrite Forall_forall in *. intros y Hy.
      specialize (Hall y Hy). specialize (Hcs y Hy).
      unfold rowLe in Hall. rewrite Hx, Hcs in Hall. exact Hall.
    + assert (cs = []) as ->.
      { destruct cs as [|y cs]; [reflexivity|].
        inversion Hall as [|? ? Hy _]; subst.
        inversion Hcs as [|? ? Dy _]; subst.
        unfold rowLe in Hy. rewrite Hx, Dy in Hy. discriminate. }
      exists [], (x :: rs). cbn in *. repeat split; auto.
      constructor; [exact Srs|].
      rewrite Forall_forall in *. intros y Hy.
      specialize (Hall y Hy). specialize (Hrs y Hy).
      unfold rowLe in Hall. rewrite Hx, Hrs in Hall. exact Hall.
Qed.

(** The claim of C2 fails on [chainDb]: the request succeeds, and the
    callee row comes first, the caller row second. *)
Lemma neighborhoodStmt_callee_first :
  status (functionGraph chainDb (JSString (lit "pkg::f"))) = 200%Z
  /\ neighborhoodStmt chainDb (utf8 (lit "pkg::f"))
     = [neighbor "callee" (fn "pkg::b" "beta");
        neighbor "caller" (fn "pkg::a" "alpha")]
  /\ ("callee" ?= "caller") = Lt.
Proof. split; [|split]; reflexivity. Qed.

(** C2 (amended): for a successful request, the neighborhood rows are all
    the callee rows followed by all the caller rows, each group ordered by
    name under the binary collation (NULL first), and the neighbor entries
    of the response follow the rows in that order. *)
Theorem getNeighborhood_row_order
    (db : Db.t) (functionId : jsstring) (response : GraphResponse.t) :
  getNeighborhood db functionId = Send response ->
  exists callees callers,
    neighborhoodStmt db (utf8 functionId) = (callees ++ callers)%list
    /\ Forall (fun r => Row.direction r = "callee") callees
    /\ Forall (fun r => Row.direction r = "caller") callers
    /\ StronglySorted byName callees
    /\ StronglySorted byName callers
    /\ map GraphNode.id (tl (GraphResponse.nodes response))
       = map Row.id (callees ++ callers)%list.
Proof.
  intros H.
  destruct (sorted_rows_split (neighborhoodStmt db (utf8 functionId)))
    as (cs & rs & E & Hcs & Hrs & Scs & Srs).
  { apply orderBy_sorted; [apply rowLe_total | apply rowLe_trans]. }
  { apply neighborhoodStmt_directions. }
  exists cs, rs. repeat split; auto.
  rewrite <- E. unfold getNeighborhood in H.
  destruct (find _ (Db.nodes db)) as [functionRow|].
  - destruct (nodeIdArray functionRow _);
      injection H as <-; cbn; now rewrite map_map.
  - destruct (find _ (Db.nodes db)); discriminate.
Qed.

Lemma getNeighborhood_row_order_witness :
  exists callees callers,
    neighborhoodStmt chainDb (utf8 (lit "pkg::f")) = (callees ++ callers)%list
    /\ Forall (fun r => Row.direction r = "callee") callees
    /\ Forall (fun r => Row.direction r = "caller") callers
    /\ StronglySorted byName callees
    /\ StronglySorted byName callers
    /\ ["pkg::b"; "pkg::a"] = map Row.id (callees ++ callers)%list.
Proof.
  exact (getNeighborhood_row_order chainDb (lit "pkg::f") _ eq_refl).
Defined.

(** ** The node list of the response *)

Lemma has_In s x : has s x = true <-> In x s.
Proof.
  unfold has. rewrite existsb_exists. split.
  - intros (y & Hy & E). apply String.eqb_eq in E. now subst.
  - intros H. exists x. split; [exact H|apply String.eqb_refl].
Qed.

(** The node list has one entry for the function and one per row. *)
Lemma getNeighborhood_nodes_length db functionId response :
  getNeighborhood db functionId = Send response ->
  List.length (GraphResponse.nodes response)
  = S (List.length (neighborhoodStmt db (utf8 functionId))).
Proof.
  unfold getNeighborhood. intros H.
  destruct (find _ (Db.nodes db)) as [functionRow|].
  - destruct (nodeIdArray functionRow _);
      injection H as <-; cbn; now rewrite length_map.
  - destruct (find _ (Db.nodes db)); discriminate.
Qed.

(** The id array bound to the edge statement has at most 1000 entries. *)
Lemma nodeIdArray_capped functionRow rows :
  (List.length (nodeIdArray functionRow rows) <= MAX_NODES_IN_GRAPH)%nat.
Proof.
  unfold nodeIdArray.
  destruct (Nat.ltb_spec MAX_NODES_IN_GRAPH
              (List.length (nodeIds functionRow rows))) as [H|H].
  - apply firstn_le_length.
  - exact H.
Qed.

Lemma mapi_from_In {A B} (f : A -> nat -> B) l i y :
  In y (mapi_from i f l) -> exists x j, In x l /\ y = f x j.
Proof.
  revert i. induction l as [|x t IH]; cbn; intros i H; [destruct H|].
  destruct H as [<-|H]; [now eauto|].
  destruct (IH _ H) as (x' & j & Hin & ->). eauto.
Qed.

(** Every returned edge is a call edge of the store between two ids of
    the capped id array. *)
Lemma getNeighborhood_edges_within db functionId functionRow response e :
  find (fun n => (Node.id n =? utf8 functionId)
                 && (Node.kind n =? "function")) (Db.nodes db)
  = Some functionRow ->
  getNeighborhood db functionId = Send response ->
  In e (GraphResponse.edges response) ->
  In (GraphEdge.source e)
    (nodeIdArray functionRow (neighborhoodStmt db (utf8 functionId)))
  /\ In (GraphEdge.target e)
       (nodeIdArray functionRow (neighborhoodStmt db (utf8 functionId))).
Proof.
  intros Hf H He. unfold getNeighborhood in H. rewrite Hf in H.
  remember (nodeIdArray functionRow (neighborhoodStmt db (utf8 functionId)))
    as ids eqn:Ei.
  destruct ids as [|i0 rest].
  - injection H as <-. destruct He.
  - injection H as <-. cbn [GraphResponse.edges] in He.
    apply mapi_from_In in He as (edge & j & Hin & ->).
    apply filter_In in Hin as [_ Hin].
    rewrite <- !andb_lazy_alt in Hin.
    apply andb_true_iff in Hin as [Hin Ht].
    apply andb_true_iff in Hin as [_ Hs].
    cbn [GraphEdge.source GraphEdge.target].
    split; now apply has_In.
Qed.

(** C1: on [fanInDb] the node set holds 1001 distinct ids and the id array
    of the edge statement is cut to 1000, but the node list of the
    response keeps all 1001 entries. *)
Theorem getNeighborhood_fan_in_nodes :
  List.length
    (nodeIds (fn "pkg::f" "f") (neighborhoodStmt fanInDb "pkg::f")) = 1001%nat
  /\ List.length
       (nodeIdArray (fn "pkg::f" "f") (neighborhoodStmt fanInDb "pkg::f"))
     = 1000%nat
  /\ option_map (fun r => List.length (GraphResponse.nodes r))
       (payload (functionGraph fanInDb (JSString (lit "pkg::f"))))
     = Some 1001%nat.
Proof. split; [|split]; vm_compute; reflexivity. Qed.

(** C3: on [mutualDb] the node set is [{f, g}], but the node list of the
    response lists [f] three times and [g] twice. *)
Theorem getNeighborhood_mutual_nodes :
  nodeIds (fn "pkg::f" "f") (neighborhoodStmt mutualDb "pkg::f")
  = ["pkg::f"; "pkg::g"]
  /\ option_map (fun r => map GraphNode.id (GraphResponse.nodes r))
       (payload (functionGraph mutualDb (JSString (lit "pkg::f"))))
     = Some ["pkg::f"; "pkg::f"; "pkg::g"; "pkg::f"; "pkg::g"].
Proof. split; reflexivity. Qed.

(** ** More on the validation helpers *)

Lemma sanitizeNodeId_of_pattern s :
  idPattern s = true -> (List.length s <= MAX_ID_LENGTH)%nat ->
  sanitizeNodeId (JSString s) = accept s.
Proof.
  intros Hp Hlen.
  pose proof (idPattern_chars s Hp) as [Hne Hall].
  destruct s as [|z zs]; [contradiction|].
  unfold sanitizeNodeId, decoded.
  rewrite decode_plain
    by (eapply Forall_impl; [|exact Hall]; apply isIdChar_not_percent).
  rewrite trim_fixed
    by (eapply Forall_impl; [|exact Hall]; apply isIdChar_not_space).
  destruct (Nat.ltb_spec MAX_ID_LENGTH (List.length (z :: zs))); [lia|].
  rewrite stripControl_fixed
    by (eapply Forall_impl; [|exact Hall]; apply isIdChar_not_control).
  now rewrite Hp.
Qed.

(** X1: a non-empty string of allowed characters, at most 500 units long,
    is accepted and returned unchanged. *)
Theorem sanitizeNodeId_accepts_clean (s : jsstring) :
  idPattern s = true -> (List.length s <= MAX_ID_LENGTH)%nat ->
  sanitizeNodeId (JSString s) = accept s.
Proof. apply sanitizeNodeId_of_pattern. Qed.

Lemma sanitizeNodeId_accepts_clean_witness :
  (List.length (repeat 97%N 500) <= MAX_ID_LENGTH)%nat
  /\ sanitizeNodeId (JSString (repeat 97%N 500)) = accept (repeat 97%N 500).
Proof.
  assert (H : (List.length (repeat 97%N 500) <= MAX_ID_LENGTH)%nat)
    by (rewrite repeat_length; apply Nat.le_refl).
  split; [exact H|].
  exact (sanitizeNodeId_accepts_clean (repeat 97%N 500) eq_refl H).
Defined.

(** X2: the result of [sanitizeNodeId] is either an accepted id (valid, no
    error, made of allowed characters only, non-empty, at most 500 units)
    or a rejection with an empty [sanitized] field and one of the four
    error messages. *)
Theorem sanitizeNodeId_result (v : jsvalue) :
  (valid (sanitizeNodeId v) = true
   /\ error (sanitizeNodeId v) = None
   /\ idPattern (sanitized (sanitizeNodeId v)) = true
   /\ (List.length (sanitized (sanitizeNodeId v)) <= MAX_ID_LENGTH)%nat)
  \/ (valid (sanitizeNodeId v) = false
      /\ sanitized (sanitizeNodeId v) = []
      /\ exists msg,
           error (sanitizeNodeId v) = Some msg
           /\ In msg ["Node ID is required"; "Node ID cannot be empty";
                      "Node ID too long (max 500 characters)";
                      "Node ID contains invalid characters"]).
Proof.
  destruct v as [raw| |items];
    try (right; repeat split; eexists; split; [reflexivity|cbn; tauto]).
  destruct raw as [|x r];
    [right; repeat split; eexists; split; [reflexivity|cbn; tauto]|].
  unfold sanitizeNodeId.
  destruct (trim (decoded (x :: r))) as [|y ys] eqn:Ed;
    [right; repeat split; eexists; split; [reflexivity|cbn; tauto]|].
  destruct (Nat.ltb_spec MAX_ID_LENGTH (List.length (y :: ys))) as [|Hlen];
    [right; repeat split; eexists; split; [reflexivity|cbn; tauto]|].
  destruct (idPattern (stripControl (y :: ys))) eqn:Ep; cbn [negb];
    [|right; repeat split; eexists; split; [reflexivity|cbn; tauto]].
  left. cbn [valid error sanitized accept]. repeat split; auto.
  unfold stripControl. etransitivity; [apply filter_length_le|exact Hlen].
Qed.

Lemma dropWhile_In p s c :
  In c s -> p c = true \/ In c (dropWhile p s).
Proof.
  induction s as [|x t IH]; cbn; [tauto|].
  intros [->|H].
  - destruct (p c) eqn:E; [now left|right; now left].
  - destruct (p x) eqn:E; [now apply IH|right; now right].
Qed.

(** A unit of a string is white space or survives trimming. *)
Lemma trim_In s c : In c s -> isWhiteSpace c = true \/ In c (trim s).
Proof.
  intros H. unfold trim, trimEnd, trimStart.
  destruct (dropWhile_In isWhiteSpace s c H) as [W|H1]; [now left|].
  apply in_rev in H1.
  destruct (dropWhile_In isWhiteSpace _ c H1) as [W|H2]; [now left|].
  right. now apply in_rev in H2.
Qed.

(** X3: an id that [validateFunctionId] accepts is accepted by
    [sanitizeNodeId] too, which returns it trimmed. *)
Theorem validateFunctionId_sanitizeNodeId (id : jsstring) :
  FunctionIdResult.valid (validateFunctionId (JSString id)) = true ->
  sanitizeNodeId (JSString id) = accept (trim id).
Proof.
  destruct id as [|x r]; [discriminate|].
  unfold validateFunctionId.
  destruct (trim (x :: r)) as [|y ys] eqn:Et; [discriminate|].
  destruct (Nat.ltb_spec MAX_ID_LENGTH (List.length (y :: ys))) as [|Hlen];
    [discriminate|].
  destruct (idPattern (y :: ys)) eqn:Ep; [|discriminate].
  intros _.
  pose proof (idPattern_chars _ Ep) as [_ Hall].
  assert (Hpct : Forall (fun c => c <> 37%N) (x :: r)).
  { apply Forall_forall. intros c Hc E. subst c.
    destruct (trim_In _ _ Hc) as [W|Hin]; [discriminate|].
    rewrite Et in Hin. rewrite Forall_forall in Hall.
    now apply (isIdChar_not_percent _ (Hall _ Hin)). }
  unfold sanitizeNodeId, decoded. rewrite (decode_plain _ Hpct), Et.
  destruct (Nat.ltb_spec MAX_ID_LENGTH (List.length (y :: ys))); [lia|].
  rewrite stripControl_fixed
    by (eapply Forall_impl; [|exact Hall]; apply isIdChar_not_control).
  now rewrite Ep.
Qed.

Lemma validateFunctionId_sanitizeNodeId_witness :
  sanitizeNodeId (JSString (lit "  pkg::f@file.go:10:5 "))
  = accept (trim (lit "  pkg::f@file.go:10:5 ")).
Proof.
  exact (validateFunctionId_sanitizeNodeId
           (lit "  pkg::f@file.go:10:5 ") eq_refl).
Defined.

(** ** Percent-encoding round trip *)

Local Open Scope list_scope.

Ltac Zify.zify_post_hook ::= Z.to_euclidean_division_equations.

Ltac boolsN :=
  rewrite ?andb_true_iff, ?orb_true_iff, ?negb_true_iff, ?andb_false_iff,
    ?orb_false_iff, ?N.leb_le, ?N.ltb_lt, ?N.leb_gt, ?N.ltb_ge, ?N.eqb_eq,
    ?N.eqb_neq in *.

Lemma decodeHex_hexDigit d : (d < 16)%N -> decodeHex (hexDigit d) = Some d.
Proof.
  intros H. unfold hexDigit, decodeHex.
  destruct (N.ltb_spec d 10).
  - replace ((48 <=? 48 + d) && (48 + d <=? 57))%N with true
      by (symmetry; boolsN; lia).
    f_equal. lia.
  - replace ((48 <=? 55 + d) && (55 + d <=? 57))%N with false
      by (symmetry; boolsN; lia).
    replace ((65 <=? 55 + d) && (55 + d <=? 70))%N with true
      by (symmetry; boolsN; lia).
    f_equal. lia.
Qed.

(** Reading back an escape gives its octet. *)
Lemma escape_percent {R} b rest (k : N -> jsstring -> option R) :
  (b < 256)%N -> escape (percent b ++ rest) k = k b rest.
Proof.
  intros H. unfold percent. cbn [app escape]. rewrite N.eqb_refl.
  rewrite !decodeHex_hexDigit by lia.
  f_equal. lia.
Qed.

Lemma decode_percent_cons b rest :
  decode (percent b ++ rest)
  = escape (percent b ++ rest) (fun b0 r0 =>
      if (b0 <? 128)%N then option_map (cons b0) (decode r0)
      else if (b0 <? 192)%N then None
      else if (b0 <? 224)%N then
        escape r0 (fun b1 r1 => emit (decode2 b0 b1) (decode r1))
      else if (b0 <? 240)%N then
        escape r0 (fun b1 r1 =>
        escape r1 (fun b2 r2 => emit (decode3 b0 b1 b2) (decode r2)))
      else if (b0 <? 248)%N then
        escape r0 (fun b1 r1 =>
        escape r1 (fun b2 r2 =>
        escape r2 (fun b3 r3 =>
          emit (decode4 b0 b1 b2 b3) (decode r3))))
      else None).
Proof. reflexivity. Qed.

(** Decoding the escapes of the octets of a code point gives back its
    UTF-16 form. *)
Lemma decode_octets v rest :
  (v < 1114112)%N ->
  (v < 55296 \/ 57343 < v)%N ->
  decode (flat_map percent (octets v) ++ rest)
  = option_map (app (utf16 v)) (decode rest).
Proof.
  intros Hmax Hsur. unfold octets.
  destruct (N.ltb_spec v 128) as [H1|H1];
    [|destruct (N.ltb_spec v 2048) as [H2|H2];
      [|destruct (N.ltb_spec v 65536) as [H3|H3]]];
    cbn [flat_map]; rewrite ?app_nil_r, <- ?app_assoc;
    rewrite decode_percent_cons, escape_percent by lia.
  - replace (v <? 128)%N with true by (symmetry; boolsN; lia).
    unfold utf16. replace (v <? 65536)%N with true by (symmetry; boolsN; lia).
    reflexivity.
  - replace (192 + v / 64 <? 128)%N with false by (symmetry; boolsN; lia).
    replace (192 + v / 64 <? 192)%N with false by (symmetry; boolsN; lia).
    replace (192 + v / 64 <? 224)%N with true by (symmetry; boolsN; lia).
    rewrite escape_percent by lia.
    unfold decode2, isContinuation.
    replace ((194 <=? 192 + v / 64)
             && ((128 <=? 128 + v mod 64) && (128 + v mod 64 <=? 191)))%N
      with true by (symmetry; boolsN; lia).
    replace ((192 + v / 64 - 192) * 64 + (128 + v mod 64 - 128))%N with v
      by lia.
    unfold emit, utf16.
    replace (v <? 65536)%N with true by (symmetry; boolsN; lia).
    now destruct (decode rest).
  - replace (224 + v / 4096 <? 128)%N with false by (symmetry; boolsN; lia).
    replace (224 + v / 4096 <? 192)%N with false by (symmetry; boolsN; lia).
    replace (224 + v / 4096 <? 224)%N with false by (symmetry; boolsN; lia).
    replace (224 + v / 4096 <? 240)%N with true by (symmetry; boolsN; lia).
    rewrite escape_percent by lia. rewrite escape_percent by lia.
    unfold decode3, isContinuation.
    replace ((224 + v / 4096 - 224) * 4096
             + (128 + (v / 64) mod 64 - 128) * 64
             + (128 + v mod 64 - 128))%N with v by lia.
    replace ((128 <=? 128 + (v / 64) mod 64)
             && (128 + (v / 64) mod 64 <=? 191)
             && ((128 <=? 128 + v mod 64) && (128 + v mod 64 <=? 191))
             && (2048 <=? v)
             && negb ((55296 <=? v) && (v <=? 57343)))%N
      with true by (symmetry; boolsN; lia).
    unfold emit, utf16.
    replace (v <? 65536)%N with true by (symmetry; boolsN; lia).
    now destruct (decode rest).
  - replace (240 + v / 262144 <? 128)%N with false
      by (symmetry; boolsN; lia).
    replace (240 + v / 262144 <? 192)%N with false
      by (symmetry; boolsN; lia).
    replace (240 + v / 262144 <? 224)%N with false
      by (symmetry; boolsN; lia).
    replace (240 + v / 262144 <? 240)%N with false
      by (symmetry; boolsN; lia).
    replace (240 + v / 262144 <? 248)%N with true
      by (symmetry; boolsN; lia).
    rewrite escape_percent by lia. rewrite escape_percent by lia.
    rewrite escape_percent by lia.
    unfold decode4, isContinuation.
    replace ((240 + v / 262144 - 240) * 262144
             + (128 + (v / 4096) mod 64 - 128) * 4096
             + (128 + (v / 64) mod 64 - 128) * 64
             + (128 + v mod 64 - 128))%N with v by lia.
    replace ((128 <=? 128 + (v / 4096) mod 64)
             && (128 + (v / 4096) mod 64 <=? 191)
             && ((128 <=? 128 + (v / 64) mod 64)
                 && (128 + (v / 64) mod 64 <=? 191))
             && ((128 <=? 128 + v mod 64) && (128 + v mod 64 <=? 191))
             && (65536 <=? v) && (v <=? 1114111))%N
      with true by (symmetry; boolsN; lia).
    unfold emit. now destruct (decode rest).
Qed.

Lemma encodeURIComponent_cons c t :
  encodeURIComponent (c :: t)
  = if isUnescaped c then option_map (cons c) (encodeURIComponent t)
    else if isHighSurrogate c then
      match t with
      | d :: t' =>
          if isLowSurrogate d
          then option_map
                 (app (flat_map percent (octets (codePoint c d))))
                 (encodeURIComponent t')
          else None
      | [] => None
      end
    else if isLowSurrogate c then None
    else option_map (app (flat_map percent (octets c)))
           (encodeURIComponent t).
Proof. reflexivity. Qed.

Lemma isUnescaped_not_percent c : isUnescaped c = true -> c <> 37%N.
Proof. unfold isUnescaped. intros H. bools H. lia. Qed.

Lemma encode_decode_fuel (n : nat) : forall s e,
  (List.length s <= n)%nat ->
  Forall (fun c => (c < 65536)%N) s ->
  encodeURIComponent s = Some e ->
  decode e = Some s.
Proof.
  induction n as [|n IH]; intros s e Hn Hs He.
  - destruct s; [|cbn in Hn; lia]. cbn in He. now injection He as <-.
  - destruct s as [|c t]; [cbn in He; now injection He as <-|].
    inversion Hs as [|? ? Hc Ht]; subst.
    rewrite encodeURIComponent_cons in He. cbn [List.length] in Hn.
    destruct (isUnescaped c) eqn:Eu.
    { destruct (encodeURIComponent t) as [e'|] eqn:Et; [|discriminate].
      injection He as <-. cbn [decode].
      destruct (N.eqb_spec c 37) as [E|_];
        [now apply isUnescaped_not_percent in Eu|].
      rewrite (IH t e') by (auto; lia). reflexivity. }
    destruct (isHighSurrogate c) eqn:Eh.
    { destruct t as [|d t']; [discriminate|].
      destruct (isLowSurrogate d) eqn:El; [|discriminate].
      destruct (encodeURIComponent t') as [e'|] eqn:Et; [|discriminate].
      cbn [option_map] in He. injection He as <-.
      inversion Ht as [|? ? Hd Ht']; subst.
      unfold isHighSurrogate in Eh. unfold isLowSurrogate in El.
      bools Eh. bools El.
      assert (Hv : (65536 <= codePoint c d < 1114112)%N)
        by (unfold codePoint; lia).
      rewrite decode_octets by lia.
      rewrite (IH t' e') by (auto; cbn in Hn; lia).
      cbn [option_map]. f_equal. unfold utf16.
      replace (codePoint c d <? 65536)%N
        with false by (symmetry; boolsN; lia).
      cbn [app]. unfold codePoint. f_equal; [lia|]. f_equal. lia. }
    destruct (isLowSurrogate c) eqn:El; [discriminate|].
    destruct (encodeURIComponent t) as [e'|] eqn:Et; [|discriminate].
    injection He as <-.
    unfold isHighSurrogate in Eh. unfold isLowSurrogate in El.
    rewrite decode_octets.
    + rewrite (IH t e') by (auto; lia). cbn [option_map]. unfold utf16.
      replace (c <? 65536)%N with true by (symmetry; boolsN; lia).
      reflexivity.
    + lia.
    + boolsN. lia.
Qed.

Ltac Zify.zify_post_hook ::= idtac.

(** X4: decoding what [encodeURIComponent] returns gives the string back
    (for strings of 16-bit units; unpaired surrogates are not encoded). *)
Theorem decodeURIComponent_encodeURIComponent (s e : jsstring) :
  Forall (fun c => (c < 65536)%N) s ->
  encodeURIComponent s = Some e ->
  decodeURIComponent e = Some s.
Proof. intros Hs He. exact (encode_decode_fuel _ s e (Nat.le_refl _) Hs He). Qed.

Lemma decodeURIComponent_encodeURIComponent_witness :
  encodeURIComponent [112; 58; 233; 55357; 56832]%N
  = Some (lit "p%3A%C3%A9%F0%9F%98%80")
  /\ decodeURIComponent (lit "p%3A%C3%A9%F0%9F%98%80")
     = Some [112; 58; 233; 55357; 56832]%N.
Proof.
  split; [reflexivity|].
  apply (decodeURIComponent_encodeURIComponent
           [112; 58; 233; 55357; 56832]%N).
  - repeat constructor.
  - reflexivity.
Defined.

Lemma isIdChar_encodes c t :
  isIdChar c = true ->
  encodeURIComponent (c :: t)
  = option_map (app (if isUnescaped c then [c] else percent c))
      (encodeURIComponent t).
Proof.
  intros H. rewrite encodeURIComponent_cons.
  destruct (isUnescaped c); [reflexivity|].
  unfold isIdChar in H. bools H.
  replace (isHighSurrogate c) with false
    by (symmetry; unfold isHighSurrogate; boolsN; lia).
  replace (isLowSurrogate c) with false
    by (symmetry; unfold isLowSurrogate; boolsN; lia).
  unfold octets. replace (c <? 128)%N with true by (symmetry; boolsN; lia).
  cbn [flat_map]. now rewrite app_nil_r.
Qed.

Lemma encodeURIComponent_id_chars s :
  Forall (fun c => isIdChar c = true) s ->
  exists e, encodeURIComponent s = Some e /\ (s <> [] -> e <> []).
Proof.
  induction 1 as [|c t Hc _ (e & IH & _)].
  - exists []. split; [reflexivity|tauto].
  - rewrite (isIdChar_encodes c t Hc), IH. cbn [option_map].
    eexists. split; [reflexivity|]. intros _.
    destruct (isUnescaped c); discriminate.
Qed.

(** X5: a valid id (allowed characters, non-empty, at most 500 units) can
    be percent-encoded, and [sanitizeNodeId] on the encoded form accepts
    and returns the original id. *)
Theorem sanitizeNodeId_encoded (id : jsstring) :
  idPattern id = true -> (List.length id <= MAX_ID_LENGTH)%nat ->
  exists e,
    encodeURIComponent id = Some e
    /\ sanitizeNodeId (JSString e) = accept id.
Proof.
  intros Hp Hlen.
  pose proof (idPattern_chars id Hp) as [Hne Hall].
  destruct (encodeURIComponent_id_chars id Hall) as (e & He & Hnil).
  exists e. split; [exact He|].
  assert (Hd : decodeURIComponent e = Some id).
  { apply (encode_decode_fuel _ id e (Nat.le_refl _)); [|exact He].
    eapply Forall_impl; [|exact Hall].
    intros c Hc. unfold isIdChar in Hc. bools Hc. lia. }
  specialize (Hnil Hne).
  destruct e as [|x r]; [contradiction|].
  pose proof (sanitizeNodeId_of_pattern id Hp Hlen) as Hs.
  destruct id as [|z zs]; [contradiction|].
  unfold sanitizeNodeId in *. unfold decoded in *.
  rewrite Hd.
  rewrite decode_plain in Hs
    by (eapply Forall_impl; [|exact Hall]; apply isIdChar_not_percent).
  exact Hs.
Qed.

Lemma sanitizeNodeId_encoded_witness :
  exists e,
    encodeURIComponent (lit "package::function@file.go:10:5") = Some e
    /\ sanitizeNodeId (JSString e) = accept (lit "package::function@file.go:10:5").
Proof.
  apply (sanitizeNodeId_encoded (lit "package::function@file.go:10:5")).
  - reflexivity.
  - vm_compute. lia.
Defined.

Local Open Scope string_scope.

(** ** More on search terms and on GET /functions *)

Local Open Scope list_scope.

Lemma escapeLike_length s :
  (List.length (escapeLike s) <= 2 * List.length s)%nat.
Proof.
  unfold escapeLike. induction s as [|c t IH]; cbn [flat_map]; [cbn; lia|].
  rewrite length_app. cbn [List.length] in *.
  destruct ((c =? 37) || (c =? 95))%N; cbn [List.length]; lia.
Qed.

Lemma escapeLike_no_control s :
  Forall (fun c => isControl c = false) s ->
  Forall (fun c => isControl c = false) (escapeLike s).
Proof.
  unfold escapeLike. induction 1 as [|c t Hc _ IH]; cbn [flat_map];
    [constructor|].
  apply Forall_app. split; [|exact IH].
  destruct ((c =? 37) || (c =? 95))%N; repeat constructor; auto.
Qed.

(** In an escaped term, a wildcard never stands at the start and always
    follows a backslash. *)
Lemma escapeLike_wildcards s pre c post :
  escapeLike s = pre ++ c :: post ->
  c = 37%N \/ c = 95%N ->
  exists pre', pre = pre' ++ [92%N].
Proof.
  unfold escapeLike. revert pre.
  induction s as [|a t IH]; intros pre E Hc; cbn [flat_map] in E.
  - destruct pre; discriminate.
  - destruct ((a =? 37) || (a =? 95))%N eqn:Ea.
    + destruct pre as [|x [|y pre]]; cbn in E.
      * injection E as <- _. destruct Hc; discriminate.
      * injection E as <- _ _. now exists [].
      * injection E as <- <- E.
        destruct (IH _ E Hc) as (p & ->). now exists (92%N :: a :: p).
    + destruct pre as [|x pre]; cbn in E.
      * injection E as <- _. apply orb_false_iff in Ea as [E1 E2].
        apply N.eqb_neq in E1, E2. destruct Hc; contradiction.
      * injection E as <- E.
        destruct (IH _ E Hc) as (p & ->). now exists (a :: p).
Qed.

(** X6: the sanitized form of a search term is at most 400 units long,
    has no control character, and each [%] or [_] in it directly follows
    a backslash. *)
Theorem validateSearchQuery_sanitized (query : jsstring) :
  let out := sanitized (validateSearchQuery (JSString query)) in
  (List.length out <= 2 * MAX_QUERY_LENGTH)%nat
  /\ Forall (fun c => isControl c = false) out
  /\ forall pre c post,
       out = pre ++ c :: post -> c = 37%N \/ c = 95%N ->
       exists pre', pre = pre' ++ [92%N].
Proof.
  unfold validateSearchQuery. rewrite tooShort_never.
  cbn [sanitized accept].
  set (t := if (MAX_QUERY_LENGTH <? List.length (trim query))%nat
            then substring0 MAX_QUERY_LENGTH (trim query)
            else trim query).
  assert (Ht : (List.length t <= MAX_QUERY_LENGTH)%nat).
  { unfold t. destruct (Nat.ltb_spec MAX_QUERY_LENGTH
                          (List.length (trim query))); [|lia].
    apply firstn_le_length. }
  repeat split.
  - etransitivity; [apply escapeLike_length|].
    pose proof (filter_length_le (fun c => negb (isControl c)) t).
    unfold stripControl. lia.
  - apply escapeLike_no_control. unfold stripControl.
    apply Forall_forall. intros c Hc. apply filter_In in Hc as [_ Hc].
    now apply negb_true_iff in Hc.
  - intros pre c post. apply escapeLike_wildcards.
Qed.

Lemma dropWhile_all p s :
  Forall (fun c => p c = true) s -> dropWhile p s = [].
Proof. induction 1 as [|c t Hc _ IH]; cbn; [reflexivity|]. now rewrite Hc. Qed.

Lemma trim_blank s :
  Forall (fun c => isWhiteSpace c = true) s -> trim s = [].
Proof.
  intros H. unfold trim, trimStart, trimEnd.
  now rewrite (dropWhile_all _ s H).
Qed.

(** X7: an absent search parameter, or one made of white space only, is
    answered with the empty list whatever the store holds; a repeated
    parameter (an array) is answered with the 400 "Query must be a
    string". *)
Theorem functions_blank
    (like : string -> string -> bool) (db : Db.t) :
  functions like db JSUndefined = Send []
  /\ (forall s, Forall (fun c => isWhiteSpace c = true) s ->
        functions like db (JSString s) = Send [])
  /\ (forall items,
        functions like db (JSArray items)
        = Fail 400 [("error", JStr "Query must be a string")]).
Proof.
  split; [reflexivity|]. split; [|reflexivity].
  intros s Hs. unfold functions.
  assert (E : validateSearchQuery (or_empty (JSString s)) = accept []).
  { destruct s as [|c t]; [reflexivity|].
    cbn [or_empty]. unfold validateSearchQuery.
    rewrite tooShort_never, (trim_blank _ Hs). reflexivity. }
  now rewrite E.
Qed.

Lemma firstn_short {A} n (l : list A) :
  (List.length (firstn n l) < n)%nat -> firstn n l = l.
Proof.
  intros H. apply firstn_all2. rewrite length_firstn in H. lia.
Qed.

Lemma firstn_incl {A} n (l : list A) x : In x (firstn n l) -> In x l.
Proof.
  intros H. rewrite <- (firstn_skipn n l). apply in_or_app. now left.
Qed.

Lemma functionsStmt_rows (like : string -> string -> bool) db pattern :
  (List.length (functionsStmt like db pattern) <= 50)%nat
  /\ (forall r, In r (functionsStmt like db pattern) ->
        exists n, In n (Db.nodes db)
          /\ Node.kind n = "function"
          /\ Node.id n = FunctionRow.id r
          /\ Node.name n = Some (FunctionRow.name r)
          /\ like pattern (FunctionRow.name r) = true)
  /\ ((List.length (functionsStmt like db pattern) < 50)%nat ->
      forall n name, In n (Db.nodes db) ->
        Node.kind n = "function" -> Node.name n = Some name ->
        like pattern name = true ->
        In {| FunctionRow.id := Node.id n; FunctionRow.name := name |}
          (functionsStmt like db pattern)).
Proof.
  unfold functionsStmt. split; [apply firstn_le_length|]. split.
  - intros r Hr. apply firstn_incl in Hr.
    apply in_flat_map in Hr as (n & Hn & Hr).
    destruct (Node.name n) as [name|] eqn:En; [|destruct Hr].
    destruct (Node.kind n =? "function")%string eqn:Ek; [|destruct Hr].
    destruct (like pattern name) eqn:El; [|destruct Hr].
    destruct Hr as [<-|[]]. exists n. cbn.
    apply String.eqb_eq in Ek. auto.
  - intros Hlt n name Hn Hk Hname Hl.
    rewrite firstn_short by exact Hlt.
    apply in_flat_map. exists n. split; [exact Hn|].
    rewrite Hname, Hk, String.eqb_refl, Hl. now left.
Qed.

(** X8: a successful search returns at most 50 rows, each the id and name
    of a function node of the store whose name matches the pattern
    [%term%]; when fewer than 50 rows come back, every such node is among
    them. *)
Theorem functions_rows
    (like : string -> string -> bool) (db : Db.t) (q : jsvalue)
    (rows : list FunctionRow.t) (pattern : string) :
  functions like db q = Send rows ->
  pattern
  = ("%" ++ utf8 (sanitized (validateSearchQuery (or_empty q))) ++ "%")%string ->
  (List.length rows <= 50)%nat
  /\ (forall r, In r rows ->
        exists n, In n (Db.nodes db)
          /\ Node.kind n = "function"
          /\ Node.id n = FunctionRow.id r
          /\ Node.name n = Some (FunctionRow.name r)
          /\ like pattern (FunctionRow.name r) = true)
  /\ ((List.length rows < 50)%nat ->
      sanitized (validateSearchQuery (or_empty q)) <> [] ->
      forall n name, In n (Db.nodes db) ->
        Node.kind n = "function" -> Node.name n = Some name ->
        like pattern name = true ->
        In {| FunctionRow.id := Node.id n; FunctionRow.name := name |} rows).
Proof.
  intros H Ep. unfold functions in H.
  remember (sanitized (validateSearchQuery (or_empty q))) as term eqn:Et.
  destruct (negb (valid (validateSearchQuery (or_empty q))));
    [discriminate|].
  destruct term as [|c t].
  - assert (rows = []) as -> by congruence.
    split; [cbn; lia|]. split; [intros r []|]. intros _ E. now destruct E.
  - rewrite <- Ep in H. assert (rows = functionsStmt like db pattern) as ->
      by congruence.
    destruct (functionsStmt_rows like db pattern) as (H1 & H2 & H3).
    split; [exact H1|]. split; [exact H2|]. intros Hlt _. now apply H3.
Qed.

Lemma functions_rows_witness :
  functions (fun _ text => String.eqb text "alpha") chainDb
    (JSString (lit "alpha"))
  = Send [{| FunctionRow.id := "pkg::a"; FunctionRow.name := "alpha" |}]
  /\ (List.length
        [{| FunctionRow.id := "pkg::a"; FunctionRow.name := "alpha" |}]
      <= 50)%nat.
Proof.
  split; [reflexivity|].
  exact (proj1 (functions_rows (fun _ text => String.eqb text "alpha")
                  chainDb (JSString (lit "alpha")) _ _ eq_refl eq_refl)).
Defined.

Local Open Scope string_scope.

(** ** More on GET /function/graph *)

Local Open Scope list_scope.

Lemma add_In s y x : In x (add s y) <-> In x s \/ x = y.
Proof.
  unfold add. destruct (has s y) eqn:E.
  - apply has_In in E. split; [tauto|]. intros [H| ->]; assumption.
  - rewrite in_app_iff. cbn. intuition.
Qed.

Lemma add_NoDup s y : NoDup s -> NoDup (add s y).
Proof.
  intros H. unfold add. destruct (has s y) eqn:E; [exact H|].
  assert (Hn : ~ In y s).
  { intros Hin. apply has_In in Hin. congruence. }
  apply NoDup_rev in H. rewrite <- (rev_involutive (s ++ [y])).
  apply NoDup_rev. rewrite rev_app_distr. cbn.
  constructor; [|exact H]. now rewrite <- in_rev.
Qed.

Lemma add_extends s y : exists tail, add s y = s ++ tail.
Proof.
  unfold add. destruct (has s y); [exists []; now rewrite app_nil_r|].
  now exists [y].
Qed.


Section AddAll.
Context {A : Type} (key : A -> string).

Lemma addAll_In rows : forall init x,
  In x (fold_left (fun s row => add s (key row)) rows init)
  <-> In x init \/ In x (map key rows).
Proof.
  induction rows as [|r rows IH]; intros init x; cbn; [tauto|].
  rewrite IH, add_In. intuition.
Qed.

Lemma addAll_NoDup rows : forall init,
  NoDup init -> NoDup (fold_left (fun s row => add s (key row)) rows init).
Proof.
  induction rows as [|r rows IH]; intros init H; cbn; [exact H|].
  apply IH. now apply add_NoDup.
Qed.

Lemma addAll_extends rows : forall init,
  exists tail,
    fold_left (fun s row => add s (key row)) rows init = init ++ tail.
Proof.
  induction rows as [|r rows IH]; intros init; cbn.
  - exists []. now rewrite app_nil_r.
  - destruct (IH (add init (key r))) as (t1 & ->).
    destruct (add_extends init (key r)) as (t2 & ->).
    exists (t2 ++ t1). now rewrite app_assoc.
Qed.

End AddAll.

Lemma nodeIds_NoDup functionRow rows : NoDup (nodeIds functionRow rows).
Proof.
  unfold nodeIds. apply addAll_NoDup. apply add_NoDup. constructor.
Qed.

Lemma nodeIds_In functionRow rows x :
  In x (nodeIds functionRow rows)
  <-> x = Node.id functionRow \/ In x (map Row.id rows).
Proof. unfold nodeIds. rewrite addAll_In. cbn. intuition. Qed.

(** X9: the set [nodeIds] holds no id twice, and holds exactly the id of
    the function and the ids of the neighborhood rows. *)
Theorem nodeIds_set (functionRow : Node.t) (rows : list Row.t) :
  NoDup (nodeIds functionRow rows)
  /\ forall x,
       In x (nodeIds functionRow rows)
       <-> x = Node.id functionRow \/ In x (map Row.id rows).
Proof.
  split; [apply nodeIds_NoDup|]. intros x. apply nodeIds_In.
Qed.

Lemma nodeIds_head functionRow rows :
  exists tail, nodeIds functionRow rows = Node.id functionRow :: tail.
Proof.
  unfold nodeIds.
  destruct (addAll_extends Row.id rows (add [] (Node.id functionRow)))
    as (tail & ->).
  now exists tail.
Qed.

Lemma NoDup_firstn {A} n (l : list A) : NoDup l -> NoDup (firstn n l).
Proof.
  intros H. rewrite <- (firstn_skipn n l) in H.
  now apply NoDup_app_remove_r in H.
Qed.

(** X10: the id array bound to the edge statement starts with the id of
    the function (so it is never empty), holds no id twice, has at most
    1000 entries, and holds ids of the set [nodeIds] only. *)
Theorem nodeIdArray_shape (functionRow : Node.t) (rows : list Row.t) :
  (exists rest, nodeIdArray functionRow rows = Node.id functionRow :: rest)
  /\ NoDup (nodeIdArray functionRow rows)
  /\ (List.length (nodeIdArray functionRow rows) <= MAX_NODES_IN_GRAPH)%nat
  /\ forall x, In x (nodeIdArray functionRow rows) ->
               In x (nodeIds functionRow rows).
Proof.
  pose proof (nodeIds_NoDup functionRow rows) as Hnd.
  destruct (nodeIds_head functionRow rows) as (tail & E).
  split; [|split; [|split]].
  - unfold nodeIdArray. rewrite E.
    destruct (_ <? _)%nat; [|now exists tail].
    exists (firstn 999 tail). reflexivity.
  - unfold nodeIdArray. destruct (_ <? _)%nat; [|exact Hnd].
    now apply NoDup_firstn.
  - apply nodeIdArray_capped.
  - intros x. unfold nodeIdArray. destruct (_ <? _)%nat; [|tauto].
    apply firstn_incl.
Qed.

Lemma nodeIdArray_cons functionRow rows :
  exists rest, nodeIdArray functionRow rows = Node.id functionRow :: rest.
Proof.
  destruct (nodeIds_head functionRow rows) as (tail & E).
  unfold nodeIdArray. rewrite E.
  destruct (_ <? _)%nat; [|now exists tail].
  exists (firstn 999 tail). reflexivity.
Qed.

(** The shape of a successful reply. *)
Lemma getNeighborhood_send db functionId response :
  getNeighborhood db functionId = Send response ->
  exists functionRow,
    In functionRow (Db.nodes db)
    /\ Node.id functionRow = utf8 functionId
    /\ Node.kind functionRow = "function"%string
    /\ GraphResponse.nodes response
       = {| GraphNode.id := Node.id functionRow;
            GraphNode.label :=
              or_string (Node.name functionRow) (Node.id functionRow) |}
         :: map (fun row =>
              {| GraphNode.id := Row.id row;
                 GraphNode.label := or_string (Row.name row) (Row.id row) |})
              (neighborhoodStmt db (utf8 functionId))
    /\ GraphResponse.edges response
       = mapi (fun edge index =>
           {| GraphEdge.id := ("edge-" ++ decimal index)%string;
              GraphEdge.source := Edge.source edge;
              GraphEdge.target := Edge.target edge |})
           (edgesStmt db
              (nodeIdArray functionRow
                 (neighborhoodStmt db (utf8 functionId)))).
Proof.
  unfold getNeighborhood.
  destruct (find _ (Db.nodes db)) as [functionRow|] eqn:Ef.
  2: { clear Ef.
       destruct (find _ (Db.nodes db)); intros H; discriminate H. }
  intros H. apply find_some in Ef as [Hin Hf].
  apply andb_true_iff in Hf as [Hid Hk].
  apply String.eqb_eq in Hid, Hk.
  exists functionRow. repeat split; auto.
  - destruct (nodeIdArray functionRow _); now injection H as <-.
  - destruct (nodeIdArray_cons functionRow
                (neighborhoodStmt db (utf8 functionId))) as (rest & E).
    rewrite E in *. now injection H as <-.
Qed.

Lemma response_node_ids db functionId response :
  getNeighborhood db functionId = Send response ->
  map GraphNode.id (GraphResponse.nodes response)
  = utf8 functionId :: map Row.id (neighborhoodStmt db (utf8 functionId)).
Proof.
  intros H.
  destruct (getNeighborhood_send _ _ _ H) as (f & _ & Hid & _ & -> & _).
  cbn. rewrite map_map, Hid. reflexivity.
Qed.

Lemma mapi_from_edges k (l : list Edge.t) :
  map GraphEdge.id
    (mapi_from k (fun edge index =>
       {| GraphEdge.id := ("edge-" ++ decimal index)%string;
          GraphEdge.source := Edge.source edge;
          GraphEdge.target := Edge.target edge |}) l)
  = map (fun i => ("edge-" ++ decimal i)%string) (seq k (List.length l))
  /\ map (fun e => (GraphEdge.source e, GraphEdge.target e))
       (mapi_from k (fun edge index =>
          {| GraphEdge.id := ("edge-" ++ decimal index)%string;
             GraphEdge.source := Edge.source edge;
             GraphEdge.target := Edge.target edge |}) l)
     = map (fun e => (Edge.source e, Edge.target e)) l.
Proof.
  revert k. induction l as [|x t IH]; intros k;
    cbn [map mapi_from seq List.length]; [now split|].
  destruct (IH (S k)) as [E1 E2]. rewrite E1, E2. now split.
Qed.

Lemma decimal_inj n m : decimal n = decimal m -> n = m.
Proof.
  unfold decimal. intros H.
  assert (E : Nat.to_uint n = Nat.to_uint m).
  { apply (f_equal NilEmpty.uint_of_string) in H.
    rewrite !NilEmpty.usu in H. now injection H. }
  apply (f_equal Nat.of_uint) in E. now rewrite !Unsigned.of_to in E.
Qed.

Lemma NoDup_map_inj {A B} (f : A -> B) l :
  (forall x y, f x = f y -> x = y) -> NoDup l -> NoDup (map f l).
Proof.
  intros Hf. induction 1 as [|x l Hx _ IH]; cbn; constructor; auto.
  rewrite in_map_iff. intros (y & E & Hy). apply Hf in E. now subst.
Qed.


(** X11: in a successful reply every edge is a call edge of the store
    between two ids of one duplicate-free list of at most 1000 ids, all of
    which are ids of nodes of the reply. *)
Theorem getNeighborhood_edges_capped
    (db : Db.t) (functionId : jsstring) (response : GraphResponse.t) :
  getNeighborhood db functionId = Send response ->
  exists ids,
    (List.length ids <= MAX_NODES_IN_GRAPH)%nat
    /\ NoDup ids
    /\ incl ids (map GraphNode.id (GraphResponse.nodes response))
    /\ forall e, In e (GraphResponse.edges response) ->
         In (GraphEdge.source e) ids /\ In (GraphEdge.target e) ids
         /\ exists edge, In edge (Db.edges db)
              /\ Edge.kind edge = "call"%string
              /\ Edge.source edge = GraphEdge.source e
              /\ Edge.target edge = GraphEdge.target e.
Proof.
  intros H. pose proof (response_node_ids _ _ _ H) as Hids.
  destruct (getNeighborhood_send _ _ _ H) as (f & _ & Hid & _ & _ & He).
  set (rows := neighborhoodStmt db (utf8 functionId)) in *.
  exists (nodeIdArray f rows). split; [apply nodeIdArray_capped|].
  split.
  { unfold nodeIdArray. destruct (_ <? _)%nat;
      [apply NoDup_firstn|]; apply nodeIds_NoDup. }
  split.
  { intros x Hx. rewrite Hids, <- Hid.
    assert (Hx' : In x (nodeIds f rows)).
    { revert Hx. unfold nodeIdArray. destruct (_ <? _)%nat; [|tauto].
      apply firstn_incl. }
    apply nodeIds_In in Hx'. cbn. intuition. }
  intros e Hin. rewrite He in Hin.
  apply mapi_from_In in Hin as (edge & j & Hin & ->).
  apply filter_In in Hin as [Hin Hc].
  rewrite <- !andb_lazy_alt in Hc.
  apply andb_true_iff in Hc as [Hc Ht].
  apply andb_true_iff in Hc as [Hk Hs].
  apply String.eqb_eq in Hk. apply has_In in Hs, Ht.
  cbn [GraphEdge.source GraphEdge.target]. repeat split; auto.
  exists edge. auto.
Qed.

Lemma getNeighborhood_edges_capped_witness :
  exists ids,
    (List.length ids <= MAX_NODES_IN_GRAPH)%nat
    /\ NoDup ids
    /\ incl ids ["pkg::f"; "pkg::b"; "pkg::a"]%string
    /\ forall e,
         In e [{| GraphEdge.id := "edge-0"; GraphEdge.source := "pkg::a";
                  GraphEdge.target := "pkg::f" |};
               {| GraphEdge.id := "edge-1"; GraphEdge.source := "pkg::f";
                  GraphEdge.target := "pkg::b" |}]%string ->
         In (GraphEdge.source e) ids /\ In (GraphEdge.target e) ids
         /\ exists edge, In edge (Db.edges chainDb)
              /\ Edge.kind edge = "call"%string
              /\ Edge.source edge = GraphEdge.source e
              /\ Edge.target edge = GraphEdge.target e.
Proof.
  exact (getNeighborhood_edges_capped chainDb (lit "pkg::f") _ eq_refl).
Defined.



(** X13: the edges of a successful reply are numbered [edge-0], [edge-1],
    ... in order, so no two of them share an id. *)
Theorem getNeighborhood_edge_ids
    (db : Db.t) (functionId : jsstring) (response : GraphResponse.t) :
  getNeighborhood db functionId = Send response ->
  map GraphEdge.id (GraphResponse.edges response)
  = map (fun i => ("edge-" ++ decimal i)%string)
      (seq 0 (List.length (GraphResponse.edges response)))
  /\ NoDup (map GraphEdge.id (GraphResponse.edges response)).
Proof.
  intros H.
  destruct (getNeighborhood_send _ _ _ H) as (f & _ & _ & _ & _ & He).
  assert (E : map GraphEdge.id (GraphResponse.edges response)
              = map (fun i => ("edge-" ++ decimal i)%string)
                  (seq 0 (List.length (GraphResponse.edges response)))).
  { rewrite <- (length_map GraphEdge.id (GraphResponse.edges response)).
    rewrite He. unfold mapi. rewrite (proj1 (mapi_from_edges 0 _)).
    now rewrite length_map, length_seq. }
  split; [exact E|]. rewrite E. apply NoDup_map_inj; [|apply seq_NoDup].
  intros x y Hxy. cbn in Hxy. injection Hxy as Hxy. now apply decimal_inj.
Qed.

Lemma getNeighborhood_edge_ids_witness :
  ["edge-0"; "edge-1"]%string
  = map (fun i => ("edge-" ++ decimal i)%string) (seq 0 2)
  /\ NoDup ["edge-0"; "edge-1"]%string.
Proof.
  exact (getNeighborhood_edge_ids chainDb (lit "pkg::f") _ eq_refl).
Defined.

Lemma callerRows_In db bound r :
  In r (callerRows db bound)
  <-> exists e n, In e (Db.edges db) /\ In n (Db.nodes db)
        /\ Node.id n = Edge.source e /\ Edge.target e = bound
        /\ Edge.kind e = "call"%string /\ Node.kind n = "function"%string
        /\ r = neighbor "caller" n.
Proof.
  unfold callerRows. rewrite in_flat_map. split.
  - intros (e & He & Hr). apply in_map_iff in Hr as (n & <- & Hn).
    apply filter_In in Hn as [Hn Hc]. rewrite <- !andb_lazy_alt in Hc.
    rewrite !andb_true_iff, !String.eqb_eq in Hc.
    exists e, n. intuition.
  - intros (e & n & He & Hn & H1 & H2 & H3 & H4 & ->).
    exists e. split; [exact He|]. apply in_map. apply filter_In.
    split; [exact Hn|]. rewrite <- !andb_lazy_alt.
    rewrite !andb_true_iff, !String.eqb_eq. auto.
Qed.

Lemma calleeRows_In db bound r :
  In r (calleeRows db bound)
  <-> exists e n, In e (Db.edges db) /\ In n (Db.nodes db)
        /\ Node.id n = Edge.target e /\ Edge.source e = bound
        /\ Edge.kind e = "call"%string /\ Node.kind n = "function"%string
        /\ r = neighbor "callee" n.
Proof.
  unfold calleeRows. rewrite in_flat_map. split.
  - intros (e & He & Hr). apply in_map_iff in Hr as (n & <- & Hn).
    apply filter_In in Hn as [Hn Hc]. rewrite <- !andb_lazy_alt in Hc.
    rewrite !andb_true_iff, !String.eqb_eq in Hc.
    exists e, n. intuition.
  - intros (e & n & He & Hn & H1 & H2 & H3 & H4 & ->).
    exists e. split; [exact He|]. apply in_map. apply filter_In.
    split; [exact Hn|]. rewrite <- !andb_lazy_alt.
    rewrite !andb_true_iff, !String.eqb_eq. auto.
Qed.

(** X14: in a successful reply the first node is the requested function,
    and an id is among the further nodes exactly when it is the id of a
    function node of the store joined to the requested id by a call edge,
    in either direction. *)
Theorem getNeighborhood_neighbors
    (db : Db.t) (functionId : jsstring) (response : GraphResponse.t) :
  getNeighborhood db functionId = Send response ->
  exists label rest,
    GraphResponse.nodes response
    = {| GraphNode.id := utf8 functionId; GraphNode.label := label |} :: rest
    /\ forall x,
         In x (map GraphNode.id rest)
         <-> exists n e, In n (Db.nodes db) /\ In e (Db.edges db)
               /\ Node.id n = x /\ Node.kind n = "function"%string
               /\ Edge.kind e = "call"%string
               /\ ((Edge.source e = x /\ Edge.target e = utf8 functionId)
                   \/ (Edge.source e = utf8 functionId
                       /\ Edge.target e = x)).
Proof.
  intros H.
  destruct (getNeighborhood_send _ _ _ H) as (f & _ & Hid & _ & Hn & _).
  rewrite Hid in Hn. do 2 eexists. split; [exact Hn|].
  intros x. rewrite map_map. cbn [GraphNode.id]. rewrite in_map_iff.
  unfold neighborhoodStmt. split.
  - intros (r & <- & Hr). apply orderBy_In in Hr.
    apply in_app_or in Hr as [Hr|Hr].
    + apply callerRows_In in Hr as (e & n & He & Hin & H1 & H2 & H3 & H4 & ->).
      exists n, e. cbn. intuition.
    + apply calleeRows_In in Hr as (e & n & He & Hin & H1 & H2 & H3 & H4 & ->).
      exists n, e. cbn. intuition.
  - intros (n & e & Hin & He & <- & Hk & Hc & [[H1 H2]|[H1 H2]]).
    + exists (neighbor "caller" n). split; [reflexivity|].
      apply orderBy_In. apply in_or_app. left.
      apply callerRows_In. exists e, n. intuition.
    + exists (neighbor "callee" n). split; [reflexivity|].
      apply orderBy_In. apply in_or_app. right.
      apply calleeRows_In. exists e, n. intuition.
Qed.

Lemma getNeighborhood_neighbors_witness :
  exists label rest,
    [{| GraphNode.id := "pkg::f"; GraphNode.label := "f" |};
     {| GraphNode.id := "pkg::b"; GraphNode.label := "beta" |};
     {| GraphNode.id := "pkg::a"; GraphNode.label := "alpha" |}]%string
    = {| GraphNode.id := "pkg::f"%string; GraphNode.label := label |} :: rest
    /\ forall x,
         In x (map GraphNode.id rest)
         <-> exists n e, In n (Db.nodes chainDb) /\ In e (Db.edges chainDb)
               /\ Node.id n = x /\ Node.kind n = "function"%string
               /\ Edge.kind e = "call"%string
               /\ ((Edge.source e = x /\ Edge.target e = "pkg::f"%string)
                   \/ (Edge.source e = "pkg::f"%string
                       /\ Edge.target e = x)).
Proof.
  exact (getNeighborhood_neighbors chainDb (lit "pkg::f") _ eq_refl).
Defined.

Lemma sanitizeNodeId_valid v :
  valid (sanitizeNodeId v) = true ->
  sanitizeNodeId v = accept (sanitized (sanitizeNodeId v)).
Proof.
  destruct v as [raw| |items]; try discriminate.
  destruct raw as [|x r]; [discriminate|].
  unfold sanitizeNodeId.
  destruct (trim (decoded (x :: r))) as [|y ys]; [discriminate|].
  destruct (_ <? _)%nat; [discriminate|].
  destruct (negb _); [discriminate|]. reflexivity.
Qed.

Lemma sanitizeNodeId_invalid v :
  valid (sanitizeNodeId v) = false ->
  exists msg, sanitizeNodeId v = reject msg /\ msg <> EmptyString.
Proof.
  destruct v as [raw| |items];
    try (intros _; eexists; split; [reflexivity|discriminate]).
  destruct raw as [|x r];
    [intros _; eexists; split; [reflexivity|discriminate]|].
  unfold sanitizeNodeId.
  destruct (trim (decoded (x :: r))) as [|y ys];
    [intros _; eexists; split; [reflexivity|discriminate]|].
  destruct (_ <? _)%nat;
    [intros _; eexists; split; [reflexivity|discriminate]|].
  destruct (negb _); [|discriminate].
  intros _; eexists; split; [reflexivity|discriminate].
Qed.

(** X15: an id that fails validation is answered with a 400 that carries
    the validator's message, by the graph handler and by the source
    handler alike, whatever the store holds. *)
Theorem invalid_id_is_400 (raw : jsvalue) :
  valid (sanitizeNodeId (or_empty raw)) = false ->
  exists msg,
    error (sanitizeNodeId (or_empty raw)) = Some msg
    /\ forall db,
         functionGraph db raw = Fail 400 [("error", JStr msg)]
         /\ source db raw = Fail 400 [("error", JStr msg)].
Proof.
  intros H. destruct (sanitizeNodeId_invalid _ H) as (msg & E & Hne).
  exists msg. split; [now rewrite E|].
  intros db. unfold functionGraph, source. rewrite E. cbn.
  destruct msg; [contradiction|]. now split.
Qed.

Lemma invalid_id_is_400_witness :
  exists msg,
    error (sanitizeNodeId (or_empty JSUndefined)) = Some msg
    /\ forall db,
         functionGraph db JSUndefined = Fail 400 [("error", JStr msg)]
         /\ source db JSUndefined = Fail 400 [("error", JStr msg)].
Proof. exact (invalid_id_is_400 JSUndefined eq_refl). Defined.

(** X16: the graph handler answers with a graph exactly when the id passes
    validation and the store has a function node with that id. *)
Theorem functionGraph_success (db : Db.t) (raw : jsvalue) :
  (exists response, functionGraph db raw = Send response)
  <-> exists functionId n,
        sanitizeNodeId (or_empty raw) = accept functionId
        /\ In n (Db.nodes db)
        /\ Node.id n = utf8 functionId
        /\ Node.kind n = "function"%string.
Proof.
  split.
  - intros (response & H). unfold functionGraph in H.
    destruct (valid (sanitizeNodeId (or_empty raw))) eqn:Ev;
      [|discriminate].
    cbn [negb] in H.
    destruct (getNeighborhood_send _ _ _ H) as (n & Hin & Hid & Hk & _).
    exists (sanitized (sanitizeNodeId (or_empty raw))), n.
    split; [now apply sanitizeNodeId_valid|]. auto.
  - intros (functionId & n & Hv & Hin & Hid & Hk).
    rewrite (functionGraph_validated _ _ _ Hv). unfold getNeighborhood.
    destruct (find_present
                (fun m => (Node.id m =? utf8 functionId)%string
                          && (Node.kind m =? "function")%string)
                (Db.nodes db) n Hin) as (m & ->).
    { now rewrite Hid, Hk, !String.eqb_refl. }
    destruct (nodeIdArray m _); eexists; reflexivity.
Qed.

Lemma utf8_plain s :
  Forall (fun c => (c < 128)%N) s ->
  lit (utf8 s) = s /\ String.length (utf8 s) = List.length s.
Proof.
  induction 1 as [|c t Hc _ [IH1 IH2]]; [now split|].
  cbn [utf8].
  replace (isHighSurrogate c) with false
    by (symmetry; unfold isHighSurrogate; boolsN; lia).
  replace (isLowSurrogate c) with false
    by (symmetry; unfold isLowSurrogate; boolsN; lia).
  unfold utf8_point. replace (c <? 128)%N with true
    by (symmetry; boolsN; lia).
  cbn [String.append lit String.length List.length]. rewrite IH1, IH2.
  unfold byte. rewrite N_ascii_embedding by lia. now split.
Qed.

(** X17: an accepted id is bound to the statements of the store unchanged:
    its UTF-8 form has one byte per unit, with the same value. *)
Theorem accepted_id_binding (v : jsvalue) (s : jsstring) :
  sanitizeNodeId v = accept s ->
  lit (utf8 s) = s /\ String.length (utf8 s) = List.length s.
Proof.
  intros H. apply sanitizeNodeId_accept in H as (_ & _ & _ & _ & Hp).
  apply utf8_plain. apply idPattern_chars in Hp as [_ Hall].
  eapply Forall_impl; [|exact Hall].
  intros c Hc. unfold isIdChar in Hc. bools Hc. lia.
Qed.

Lemma accepted_id_binding_witness :
  lit (utf8 (lit "pkg::f")) = lit "pkg::f"
  /\ String.length (utf8 (lit "pkg::f")) = List.length (lit "pkg::f").
Proof.
  exact (accepted_id_binding (JSString (lit " pkg%3A%3Af")) (lit "pkg::f")
           eq_refl).
Defined.

Local Open Scope string_scope.

(** ** More on GET /source *)

(** X18: for a validated id without the external prefix: when no node has
    the id the reply is the 404 "Node not found"; when the node has no
    file (NULL or empty) the 404 carries its name and package and no file
    name; when no source row has the node's file the 404 carries that file
    name. *)
Theorem source_unavailable
    (db : Db.t) (raw : jsvalue) (nodeId : jsstring) :
  sanitizeNodeId (or_empty raw) = accept nodeId ->
  startsWith nodeId (lit "ext::") = false ->
  ((forall n, In n (Db.nodes db) -> Node.id n <> utf8 nodeId) ->
   source db raw = Fail 404 [("error", JStr "Node not found")])
  /\ (forall node,
        find (fun n => Node.id n =? utf8 nodeId) (Db.nodes db) = Some node ->
        Node.file node = None \/ Node.file node = Some EmptyString ->
        exists body,
          source db raw = Fail 404 body
          /\ field "node_info" body
             = Some (JObj [("name", nullable (Node.name node));
                           ("package", nullable (Node.package node))])
          /\ field "file" body = None)
  /\ (forall node file,
        find (fun n => Node.id n =? utf8 nodeId) (Db.nodes db) = Some node ->
        Node.file node = Some file -> file <> EmptyString ->
        (forall s, In s (Db.sources db) -> SourceFile.file s <> file) ->
        exists body,
          source db raw = Fail 404 body
          /\ field "file" body = Some (JStr file)).
Proof.
  intros Hv Hext. rewrite (source_validated _ _ _ Hv).
  unfold getSource. rewrite Hext. split; [|split].
  - intros Hnone.
    destruct (find _ (Db.nodes db)) as [m|] eqn:E; [|reflexivity].
    apply find_some in E as [Hin Hm]. apply String.eqb_eq in Hm.
    now destruct (Hnone m Hin).
  - intros node -> [-> | ->]; eexists; split; try reflexivity; now split.
  - intros node file -> -> Hne Hnone.
    destruct file as [|c f]; [contradiction|].
    destruct (find _ (Db.sources db)) as [s|] eqn:E.
    + apply find_some in E as [Hin Hs]. apply String.eqb_eq in Hs.
      now destruct (Hnone s Hin).
    + eexists. split; reflexivity.
Qed.

Lemma source_unavailable_witness :
  source typeDb (JSString (lit "pkg::missing"))
  = Fail 404 [("error", JStr "Node not found")]
  /\ exists body,
       source typeDb (JSString (lit "pkg::T")) = Fail 404 body
       /\ field "file" body = Some (JStr "t.go").
Proof.
  split.
  - apply (proj1 (source_unavailable typeDb (JSString (lit "pkg::missing"))
                    (lit "pkg::missing") eq_refl eq_refl)).
    cbn. intros n [<-|[]]. discriminate.
  - apply (proj2 (proj2 (source_unavailable typeDb (JSString (lit "pkg::T"))
                           (lit "pkg::T") eq_refl eq_refl)) typeNode "t.go").
    + reflexivity.
    + reflexivity.
    + discriminate.
    + intros s [].
Defined.

Lemma split_line_cons c x :
  split (String c x) = [String c x] ->
  Ascii.eqb c newline = false /\ split x = [x].
Proof.
  cbn [split]. destruct (Ascii.eqb c newline); [discriminate|].
  destruct (split_cons x) as (h & t & E). rewrite E.
  intros [= -> ->]. now split.
Qed.

Lemma split_append x rest :
  split x = [x] -> split (x ++ String newline rest) = x :: split rest.
Proof.
  induction x as [|c x IH]; intros H.
  - reflexivity.
  - apply split_line_cons in H as [Hc Hx].
    cbn [String.append split]. rewrite Hc, (IH Hx). reflexivity.
Qed.

Lemma split_lines s : Forall (fun x => split x = [x]) (split s).
Proof.
  induction s as [|c r IH]; cbn [split]; [repeat constructor|].
  destruct (Ascii.eqb c newline) eqn:Ec; [constructor; auto|].
  destruct (split_cons r) as (h & t & E). rewrite E in *.
  inversion IH as [|? ? Hh Ht]; subst. constructor; [|exact Ht].
  cbn [split]. now rewrite Ec, Hh.
Qed.

Lemma split_join ls :
  ls <> [] -> Forall (fun x => split x = [x]) ls -> split (join ls) = ls.
Proof.
  induction ls as [|x t IH]; [contradiction|]. intros _ H.
  inversion H as [|? ? Hx Ht]; subst.
  destruct t as [|y t]; [exact Hx|].
  rewrite join_cons, (split_append _ _ Hx), IH; [reflexivity|discriminate|exact Ht].
Qed.

(** X19: joining the lines of a text gives the text back; the lines are
    never none and hold no newline; and splitting the join of such lines
    gives the lines back. *)
Theorem split_join_round_trip (content : string) (lines : list string) :
  join (split content) = content
  /\ split content <> []
  /\ Forall (fun x => split x = [x]) (split content)
  /\ (lines <> [] -> Forall (fun x => split x = [x]) lines ->
      split (join lines) = lines).
Proof.
  split; [apply join_split|]. split.
  { destruct (split_cons content) as (h & t & ->). discriminate. }
  split; [apply split_lines|]. apply split_join.
Qed.

Lemma or_number_positive l b : (0 < l)%Z -> or_number (Some l) b = l.
Proof. destruct l; [lia|reflexivity|lia]. Qed.

Lemma slice_Z {A} (l : list A) (a b : Z) :
  (0 <= a <= b)%Z -> (b <= Z.of_nat (List.length l))%Z ->
  slice l a b = firstn (Z.to_nat (b - a)) (skipn (Z.to_nat a) l).
Proof.
  intros H1 H2. unfold slice.
  destruct (Z.ltb_spec a 0); [lia|]. destruct (Z.ltb_spec b 0); [lia|].
  now rewrite !Z.min_l by lia.
Qed.


(** X20: when [line] and [end_line] satisfy
    [1 <= line <= end_line <= number of lines], the row echoes them and
    its code is the lines [line] to [end_line] of the file, which are
    [end_line - line + 1] lines. *)
Theorem sourceRow_range
    (node : Node.t) (file content : string) (l e : Z) :
  Node.line node = Some l -> Node.end_line node = Some e ->
  (1 <= l <= e)%Z -> (e <= Z.of_nat (List.length (split content)))%Z ->
  sourceRow node file content
  = {| SourceRow.file_name := file;
       SourceRow.start_line := l; SourceRow.end_line := e;
       SourceRow.code :=
         join (firstn (Z.to_nat (e - l + 1))
                 (skipn (Z.to_nat (l - 1)) (split content))) |}
  /\ List.length (split (SourceRow.code (sourceRow node file content)))
     = Z.to_nat (e - l + 1).
Proof.
  intros Hl He Hle Hlen. unfold sourceRow. rewrite Hl, He.
  rewrite !or_number_positive by lia.
  rewrite slice_Z by lia.
  replace (e - 1 + 1 - (l - 1))%Z with (e - l + 1)%Z by lia.
  split; [reflexivity|]. cbn [SourceRow.code].
  set (ls := firstn _ _).
  assert (Hn : List.length ls = Z.to_nat (e - l + 1)).
  { unfold ls. rewrite length_firstn, length_skipn. lia. }
  rewrite split_join; [exact Hn| |].
  - intros E. rewrite E in Hn. cbn in Hn. lia.
  - unfold ls. pose proof (split_lines content) as H.
    rewrite Forall_forall in *. intros x Hx. apply H.
    apply firstn_incl in Hx.
    rewrite <- (firstn_skipn (Z.to_nat (l - 1)) (split content)).
    apply in_or_app. now right.
Qed.

Lemma sourceRow_range_witness :
  SourceRow.code
    (sourceRow (sliceNode "pkg::f" (Some 10%Z) (Some 12%Z)) "f.go"
       (join twentyLines))
  = join ["line 10"; "line 11"; "line 12"].
Proof.
  refine (f_equal SourceRow.code
            (proj1 (sourceRow_range
                      (sliceNode "pkg::f" (Some 10%Z) (Some 12%Z)) "f.go"
                      (join twentyLines) 10 12 eq_refl eq_refl _ _))).
  - lia.
  - vm_compute. discriminate.
Defined.



(** ** What the client draws *)

Local Open Scope list_scope.

Lemma slice_front {A} (l : list A) (n : nat) :
  slice l 0 (Z.of_nat n) = firstn n l.
Proof.
  unfold slice. cbn [Z.ltb Z.compare].
  destruct (Z.ltb_spec (Z.of_nat n) 0); [lia|].
  rewrite (Z.min_l 0) by lia. rewrite Z.sub_0_r. cbn [Z.to_nat skipn].
  destruct (Nat.le_ge_cases n (List.length l)).
  - rewrite Z.min_l by lia. now rewrite Nat2Z.id.
  - rewrite Z.min_r by lia. rewrite Nat2Z.id.
    now rewrite firstn_all, firstn_all2.
Qed.

Lemma Graph_limitedNodes g :
  Graph.limitedNodes g = firstn 60 (GraphResponse.nodes g).
Proof. unfold Graph.limitedNodes. apply (slice_front _ 60). Qed.

Lemma Graph_nodeIds_In g x :
  In x (Graph.nodeIds g) <-> In x (map GraphNode.id (Graph.limitedNodes g)).
Proof.
  unfold Graph.nodeIds.
  rewrite (addAll_In (fun y : string => y)
             (map GraphNode.id (Graph.limitedNodes g)) [] x).
  rewrite map_id. cbn. tauto.
Qed.

(** X22: the client draws the first 60 nodes of a reply, and of its edges
    exactly those whose two ends are ids of these nodes. *)
Theorem Graph_limited (graphData : GraphResponse.t) :
  Graph.limitedNodes graphData = firstn 60 (GraphResponse.nodes graphData)
  /\ (List.length (Graph.limitedNodes graphData) <= 60)%nat
  /\ forall e,
       In e (Graph.limitedEdges graphData)
       <-> In e (GraphResponse.edges graphData)
           /\ In (GraphEdge.source e)
                (map GraphNode.id (Graph.limitedNodes graphData))
           /\ In (GraphEdge.target e)
                (map GraphNode.id (Graph.limitedNodes graphData)).
Proof.
  split; [apply Graph_limitedNodes|]. split.
  { rewrite Graph_limitedNodes. apply firstn_le_length. }
  intros e. unfold Graph.limitedEdges.
  rewrite filter_In, <- andb_lazy_alt, andb_true_iff, !has_In,
    !Graph_nodeIds_In.
  tauto.
Qed.

Lemma response_edges_closed db functionId response e :
  getNeighborhood db functionId = Send response ->
  In e (GraphResponse.edges response) ->
  In (GraphEdge.source e) (map GraphNode.id (GraphResponse.nodes response))
  /\ In (GraphEdge.target e)
       (map GraphNode.id (GraphResponse.nodes response)).
Proof.
  intros H Hin. pose proof (response_node_ids _ _ _ H) as Hids.
  destruct (getNeighborhood_send _ _ _ H) as (f & Hf & Hid & Hk & _).
  assert (Hfind : exists f',
             find (fun n => (Node.id n =? utf8 functionId)%string
                            && (Node.kind n =? "function")%string)
               (Db.nodes db) = Some f').
  { apply (find_present _ _ f Hf).
    now rewrite Hid, Hk, !String.eqb_refl. }
  destruct Hfind as (f' & Hfind).
  destruct (getNeighborhood_edges_within _ _ _ _ e Hfind H Hin) as [Hs Ht].
  assert (Hsub : forall x,
             In x (nodeIdArray f' (neighborhoodStmt db (utf8 functionId))) ->
             In x (map GraphNode.id (GraphResponse.nodes response))).
  { intros x Hx. rewrite Hids.
    assert (Hx' : In x (nodeIds f' (neighborhoodStmt db (utf8 functionId)))).
    { revert Hx. unfold nodeIdArray. destruct (_ <? _)%nat; [|tauto].
      apply firstn_incl. }
    apply nodeIds_In in Hx'. apply find_some in Hfind as [_ Hm].
    apply andb_true_iff in Hm as [Hm _]. apply String.eqb_eq in Hm.
    rewrite Hm in Hx'. cbn. intuition. }
  split; now apply Hsub.
Qed.

(** X23: when a successful reply of the graph handler lists at most 60
    nodes, the client draws all of its nodes and all of its edges. *)
Theorem Graph_draws_small_reply
    (db : Db.t) (functionId : jsstring) (response : GraphResponse.t) :
  getNeighborhood db functionId = Send response ->
  (List.length (GraphResponse.nodes response) <= 60)%nat ->
  Graph.limitedNodes response = GraphResponse.nodes response
  /\ Graph.limitedEdges response = GraphResponse.edges response.
Proof.
  intros H Hlen.
  assert (E : Graph.limitedNodes response = GraphResponse.nodes response).
  { rewrite Graph_limitedNodes. now apply firstn_all2. }
  split; [exact E|]. unfold Graph.limitedEdges.
  apply forallb_filter_id. apply forallb_forall. intros e He.
  destruct (response_edges_closed _ _ _ e H He) as [Hs Ht].
  rewrite <- andb_lazy_alt. apply andb_true_iff.
  rewrite !has_In, !Graph_nodeIds_In, E. now split.
Qed.

Lemma Graph_draws_small_reply_witness :
  exists response,
    functionGraph chainDb (JSString (lit "pkg::f")) = Send response
    /\ Graph.limitedNodes response = GraphResponse.nodes response
    /\ Graph.limitedEdges response = GraphResponse.edges response.
Proof.
  eexists. split; [reflexivity|].
  apply (Graph_draws_small_reply chainDb (lit "pkg::f") _ eq_refl).
  vm_compute. lia.
Defined.

Local Open Scope string_scope.

(** X24: whenever the source handler answers with a row, the id passed
    validation and has no external prefix, the row names the file of the
    node found for the id, that file is in the store, and the code is a
    run of consecutive lines of its content. *)
Theorem source_row_origin
    (db : Db.t) (raw : jsvalue) (row : SourceRow.t) :
  source db raw = Send row ->
  exists nodeId node src skipped taken,
    sanitizeNodeId (or_empty raw) = accept nodeId
    /\ startsWith nodeId (lit "ext::") = false
    /\ In node (Db.nodes db) /\ Node.id node = utf8 nodeId
    /\ Node.file node = Some (SourceRow.file_name row)
    /\ SourceRow.file_name row <> EmptyString
    /\ In src (Db.sources db)
    /\ SourceFile.file src = SourceRow.file_name row
    /\ SourceRow.code row
       = join (firstn taken
                 (skipn skipped (split (SourceFile.content src)))).
Proof.
  intros H. unfold source in H.
  destruct (valid (sanitizeNodeId (or_empty raw))) eqn:Ev; [|discriminate].
  cbn [negb] in H. apply sanitizeNodeId_valid in Ev.
  remember (sanitized (sanitizeNodeId (or_empty raw))) as nodeId eqn:En.
  unfold getSource in H.
  destruct (startsWith nodeId (lit "ext::")) eqn:Eext.
  { destruct (find _ (Db.nodes db)); discriminate. }
  destruct (find _ (Db.nodes db)) as [node|] eqn:Ef; [|discriminate].
  apply find_some in Ef as [Hin Hid]. apply String.eqb_eq in Hid.
  destruct (Node.file node) as [[|c f]|] eqn:Efile; try discriminate.
  destruct (find _ (Db.sources db)) as [src|] eqn:Es; [|discriminate].
  apply find_some in Es as [Hsrc Hfile]. apply String.eqb_eq in Hfile.
  injection H as <-. unfold sourceRow, slice.
  exists nodeId, node, src. do 2 eexists.
  cbn [SourceRow.file_name SourceRow.code].
  repeat split; try eassumption; try reflexivity. discriminate.
Qed.

Lemma source_row_origin_witness :
  exists nodeId node src skipped taken,
    sanitizeNodeId (or_empty (JSString (lit "pkg::g"))) = accept nodeId
    /\ startsWith nodeId (lit "ext::") = false
    /\ In node (Db.nodes sliceDb) /\ Node.id node = utf8 nodeId
    /\ Node.file node = Some "f.go"
    /\ "f.go" <> EmptyString
    /\ In src (Db.sources sliceDb)
    /\ SourceFile.file src = "f.go"
    /\ "line 5"
       = join (firstn taken
                 (skipn skipped (split (SourceFile.content src)))).
Proof.
  exact (source_row_origin sliceDb (JSString (lit "pkg::g")) _ eq_refl).
Defined.

(** X25: a successful reply of the graph handler lists one node for the
    function and one for every caller row and every callee row of the
    joins, without merging rows that name the same node. *)
Theorem getNeighborhood_node_count
    (db : Db.t) (functionId : jsstring) (response : GraphResponse.t) :
  getNeighborhood db functionId = Send response ->
  List.length (GraphResponse.nodes response)
  = S (List.length (callerRows db (utf8 functionId))
       + List.length (calleeRows db (utf8 functionId))).
Proof.
  intros H. rewrite (getNeighborhood_nodes_length _ _ _ H).
  unfold neighborhoodStmt. now rewrite orderBy_length, length_app.
Qed.

Lemma getNeighborhood_node_count_witness :
  5%nat
  = S (List.length (callerRows mutualDb (utf8 (lit "pkg::f")))
       + List.length (calleeRows mutualDb (utf8 (lit "pkg::f")))).
Proof.
  exact (getNeighborhood_node_count mutualDb (lit "pkg::f") _ eq_refl).
Defined.
